(** * pulsar-hydrogen-next: the example scripts, embedded and verified

    The repository is a set of stand-alone Python scripts under
    [examples/].  Each one builds a dataset or a chart description and
    hands it to the notebook's display mechanism.  This development
    embeds

    - the Python values the scripts manipulate (scalars and references
      to mutable heap objects: dicts, lists, library objects),
    - the literal displays the scripts are made of (dict and list
      displays, names, constants) together with their evaluation,
    - every script as the list of its top-level statements, each
      statement an action on the interpreter state (heap, global
      namespace, library settings, output log),

    and proves the properties the specification states about them. *)

From Stdlib Require Import ZArith String Ascii DecimalString DecimalZ.
From stdpp Require Import base option list strings gmap.

Set Warnings "-register-all".

(** ** Values and heap objects *)

(** A heap address. Objects are allocated at the end of the heap and never
    freed, so the address of an object is its index. *)
Abbreviation loc := nat.

(** What a Python name, a dict slot or a list slot holds. A float is kept
    as the decimal text Python prints for it ([repr]), which is also the
    text of the literal in the scripts ([6.29], [0.02], [1.25]). *)
Inductive val : Type :=
  | VNone
  | VBool (b : bool)
  | VInt (n : Z)
  | VFloat (repr : string)
  | VStr (s : string)
  | VRef (l : loc).

Arguments VInt n%_Z.

(** Mutable objects. A dict keeps its items in insertion order, as Python
    dicts do; every dict key in the scripts is a string literal or a keyword
    name. [OObj] is an instance of a library class ([DataFrame], [Figure],
    [Chart], ...) with its attributes. *)
Inductive obj : Type :=
  | ODict (items : list (string * val))
  | OList (items : list val)
  | OObj (cls : string) (attrs : list (string * val)).

Abbreviation heap := (list obj).

#[global] Instance val_eq_dec : EqDecision val.
Proof. solve_decision. Defined.

#[global] Instance obj_eq_dec : EqDecision obj.
Proof. solve_decision. Defined.

(** ** Insertion-ordered dictionaries *)

Section dict.
Context {V : Type}.

(** [d[k]] *)
Fixpoint dict_get (k : string) (d : list (string * V)) : option V :=
  match d with
  | [] => None
  | (k', v) :: d' => if decide (k = k') then Some v else dict_get k d'
  end.

(** [d[k] = v]: an existing key keeps its position, a new key goes last. *)
Fixpoint dict_set (k : string) (v : V) (d : list (string * V)) : list (string * V) :=
  match d with
  | [] => [(k, v)]
  | (k', v') :: d' =>
      if decide (k = k') then (k, v) :: d' else (k', v') :: dict_set k v d'
  end.

(** The dict a display [{k1: v1, ..., kn: vn}] or a call
    [dict(k1=v1, ..., kn=vn)] builds from its already evaluated items:
    they are stored left to right. *)
Definition dict_of_items (kvs : list (string * V)) : list (string * V) :=
  foldl (λ d kv, dict_set kv.1 kv.2 d) [] kvs.

Definition dict_keys (d : list (string * V)) : list string := d.*1.
End dict.

(** ** Literal displays *)

(** The expressions the scripts build their data from. *)
Inductive expr : Type :=
  | ENone
  | EBool (b : bool)
  | EInt (n : Z)
  | EFloat (repr : string)
  | EStr (s : string)
  | EName (x : string)
  | EList (es : list expr)
  | EDict (items : list (string * expr)).

Arguments EInt n%_Z.

(** ** Exceptions, the outside world, the interpreter state *)

Inductive exn : Type :=
  | NameError (x : string)
  | TypeError (what : string)
  | URLError (reason : string)
  | HTTPError (code : Z)
  | ParserError (reason : string).

Inductive result (A : Type) : Type :=
  | Ok (a : A)
  | Raise (e : exn).

Arguments Ok {A} a.
Arguments Raise {A} e.

(** Everything a run can depend on from outside the script: the network
    (what a GET of a URL gives: the body, or the exception the HTTP
    library raises), the command line, the environment and the files. *)
Record world : Type := World {
  http_get : string → exn + string;
  argv : list string;
  environ : gmap string string;
  files : gmap string string;
}.

(** What a script does that is visible from outside. A display carries the
    heap as it is at the call: the front end renders the object as it is
    then. *)
Inductive event : Type :=
  | EvFetch (url : string)
  | EvDisplay (payload : val) (raw : bool) (h : heap)
  | EvResult (value : val) (h : heap)
  | EvShow (figure : option val) (h : heap).

Record state : Type := State {
  st_heap : heap;
  globals : gmap string val;       (* the module namespace, [globals()] *)
  settings : gmap string val;      (* library-wide options *)
  gcf : option val;                (* pyplot's current figure *)
  log : list event;                (* outputs, oldest first *)
}.

Definition init : state :=
  {| st_heap := []; globals := ∅; settings := ∅; gcf := None; log := [] |}.

Definition set_heap (h : heap) (s : state) : state :=
  {| st_heap := h; globals := globals s; settings := settings s;
     gcf := gcf s; log := log s |}.
Definition set_global (x : string) (v : val) (s : state) : state :=
  {| st_heap := st_heap s; globals := <[x := v]> (globals s);
     settings := settings s; gcf := gcf s; log := log s |}.
Definition set_setting (x : string) (v : val) (s : state) : state :=
  {| st_heap := st_heap s; globals := globals s;
     settings := <[x := v]> (settings s); gcf := gcf s; log := log s |}.
Definition set_gcf (f : val) (s : state) : state :=
  {| st_heap := st_heap s; globals := globals s; settings := settings s;
     gcf := Some f; log := log s |}.
Definition emit (ev : event) (s : state) : state :=
  {| st_heap := st_heap s; globals := globals s; settings := settings s;
     gcf := gcf s; log := log s ++ [ev] |}.

(** ** Evaluation of literal displays *)

Definition alloc (o : obj) (h : heap) : result val * heap :=
  (Ok (VRef (length h)), h ++ [o]).

Section eval_items.
Variable ev : expr → heap → result val * heap.

(** The elements of a list display, left to right. *)
Fixpoint eval_list (es : list expr) (h : heap) : result (list val) * heap :=
  match es with
  | [] => (Ok [], h)
  | e :: es' =>
      match ev e h with
      | (Ok v, h1) =>
          match eval_list es' h1 with
          | (Ok vs, h2) => (Ok (v :: vs), h2)
          | (Raise x, h2) => (Raise x, h2)
          end
      | (Raise x, h1) => (Raise x, h1)
      end
  end.

(** The items of a dict display, left to right. *)
Fixpoint eval_items (kes : list (string * expr)) (h : heap)
  : result (list (string * val)) * heap :=
  match kes with
  | [] => (Ok [], h)
  | (k, e) :: kes' =>
      match ev e h with
      | (Ok v, h1) =>
          match eval_items kes' h1 with
          | (Ok kvs, h2) => (Ok ((k, v) :: kvs), h2)
          | (Raise x, h2) => (Raise x, h2)
          end
      | (Raise x, h1) => (Raise x, h1)
      end
  end.
End eval_items.

(** [eval g e h]: the value of [e] in the namespace [g], and the heap with
    the objects the displays of [e] allocate. An unbound name raises. *)
Fixpoint eval (g : gmap string val) (e : expr) (h : heap) {struct e}
  : result val * heap :=
  match e with
  | ENone => (Ok VNone, h)
  | EBool b => (Ok (VBool b), h)
  | EInt n => (Ok (VInt n), h)
  | EFloat r => (Ok (VFloat r), h)
  | EStr s => (Ok (VStr s), h)
  | EName x =>
      match g !! x with
      | Some v => (Ok v, h)
      | None => (Raise (NameError x), h)
      end
  | EList es =>
      match eval_list (eval g) es h with
      | (Ok vs, h1) => alloc (OList vs) h1
      | (Raise x, h1) => (Raise x, h1)
      end
  | EDict kes =>
      match eval_items (eval g) kes h with
      | (Ok kvs, h1) => alloc (ODict (dict_of_items kvs)) h1
      | (Raise x, h1) => (Raise x, h1)
      end
  end.

(** ** Documents: what an object graph looks like from outside *)

(** A value read through its references, the way a serializer or a renderer
    walks it. *)
Inductive doc : Type :=
  | DNone
  | DBool (b : bool)
  | DInt (n : Z)
  | DFloat (repr : string)
  | DStr (s : string)
  | DList (xs : list doc)
  | DDict (items : list (string * doc))
  | DObj (cls : string) (attrs : list (string * doc)).

Arguments DInt n%_Z.

Section snapshot_items.
Variable snap : val → option doc.

Fixpoint snapshot_list (vs : list val) : option (list doc) :=
  match vs with
  | [] => Some []
  | v :: vs' =>
      match snap v, snapshot_list vs' with
      | Some d, Some ds => Some (d :: ds)
      | _, _ => None
      end
  end.

Fixpoint snapshot_items (kvs : list (string * val)) : option (list (string * doc)) :=
  match kvs with
  | [] => Some []
  | (k, v) :: kvs' =>
      match snap v, snapshot_items kvs' with
      | Some d, Some ds => Some ((k, d) :: ds)
      | _, _ => None
      end
  end.
End snapshot_items.

(** [snapshot n h v]: the document [v] denotes in [h], following at most [n]
    references in a row; [None] on a dangling reference or when [n] runs
    out (a cyclic structure). *)
Fixpoint snapshot (n : nat) (h : heap) (v : val) : option doc :=
  match v with
  | VNone => Some DNone
  | VBool b => Some (DBool b)
  | VInt z => Some (DInt z)
  | VFloat r => Some (DFloat r)
  | VStr s => Some (DStr s)
  | VRef l =>
      match n with
      | 0 => None
      | S n' =>
          match h !! l with
          | None => None
          | Some (OList vs) => DList <$> snapshot_list (snapshot n' h) vs
          | Some (ODict kvs) => DDict <$> snapshot_items (snapshot n' h) kvs
          | Some (OObj c kvs) => DObj c <$> snapshot_items (snapshot n' h) kvs
          end
      end
  end.

(** A chain of references in an acyclic heap visits every object at most
    once, so [length h] steps are enough. *)
Definition deep (h : heap) (v : val) : option doc := snapshot (length h) h v.

(** The document a closed literal display (no names in it) denotes. *)
Section literal_items.
Variable lit : expr → option doc.

Fixpoint literal_list (es : list expr) : option (list doc) :=
  match es with
  | [] => Some []
  | e :: es' =>
      match lit e, literal_list es' with
      | Some d, Some ds => Some (d :: ds)
      | _, _ => None
      end
  end.

Fixpoint literal_items (kes : list (string * expr)) : option (list (string * doc)) :=
  match kes with
  | [] => Some []
  | (k, e) :: kes' =>
      match lit e, literal_items kes' with
      | Some d, Some ds => Some ((k, d) :: ds)
      | _, _ => None
      end
  end.
End literal_items.

Fixpoint literal (e : expr) : option doc :=
  match e with
  | ENone => Some DNone
  | EBool b => Some (DBool b)
  | EInt n => Some (DInt n)
  | EFloat r => Some (DFloat r)
  | EStr s => Some (DStr s)
  | EName _ => None
  | EList es => DList <$> literal_list literal es
  | EDict kes => (λ kds, DDict (dict_of_items kds)) <$> literal_items literal kes
  end.

(** How deep the displays of an expression nest. *)
Fixpoint depth (e : expr) : nat :=
  match e with
  | EList es => S (foldr (λ e n, depth e `max` n) 0 es)
  | EDict kes => S (foldr (λ ke n, depth ke.2 `max` n) 0 kes)
  | _ => 0
  end.

(** What evaluating a closed display gives: it never raises, and the value
    reads back as the document the display denotes. *)
Definition evaluates_to (g : gmap string val) (e : expr) (d : doc) : Prop :=
  ∀ h, ∃ v h',
    eval g e h = (Ok v, h') ∧ length h + depth e ≤ length h' ∧
    snapshot (depth e) h' v = Some d.

(** ** The interpreter monad *)

Definition M (A : Type) : Type := world → state → result A * state.

#[global] Instance M_ret : MRet M := λ A a _ s, (Ok a, s).
#[global] Instance M_bind : MBind M := λ A B f m w s,
  match m w s with
  | (Ok a, s1) => f a w s1
  | (Raise x, s1) => (Raise x, s1)
  end.

Definition raise {A} (x : exn) : M A := λ _ s, (Raise x, s).
Definition modify (f : state → state) : M unit := λ _ s, (Ok (), f s).
Definition output (f : heap → event) : M unit :=
  λ _ s, (Ok (), emit (f (st_heap s)) s).

(** Evaluate a display in the current namespace. *)
Definition construct (e : expr) : M val := λ _ s,
  let '(r, h) := eval (globals s) e (st_heap s) in (r, set_heap h s).

Definition new (o : obj) : M val := λ _ s,
  let '(r, h) := alloc o (st_heap s) in (r, set_heap h s).

(** A name, and a literal, as an argument or a right-hand side. *)
Definition var (x : string) : M val := construct (EName x).

(** Keyword arguments [k1=a1, ..., kn=an], evaluated left to right. *)
Fixpoint kwargs (kas : list (string * M val)) : M (list (string * val)) :=
  match kas with
  | [] => mret []
  | (k, a) :: kas' => v ← a; kvs ← kwargs kas'; mret ((k, v) :: kvs)
  end.

(** [x = e] *)
Definition assign (x : string) (m : M val) : M unit :=
  v ← m; modify (set_global x v).

Notation "x ::= m" := (assign x m) (at level 90, no associativity).

(** An expression statement whose value is dropped. *)
Definition exec (m : M val) : M unit := _ ← m; mret ().

(** The object at an address, and an update in place. *)
Definition load (l : loc) : M obj := λ _ s,
  match st_heap s !! l with
  | Some o => (Ok o, s)
  | None => (Raise (TypeError "dangling reference"), s)
  end.

Definition store (l : loc) (o : obj) : M unit :=
  modify (λ s, set_heap (<[l := o]> (st_heap s)) s).

(** [cls(k1=a1, ..., kn=an)]: an instance of a library class that keeps its
    arguments as attributes. *)
Definition instance (cls : string) (kas : list (string * M val)) : M val :=
  kvs ← kwargs kas; new (OObj cls (dict_of_items kvs)).

(** ** Library calls *)

(** [display(a, raw=r)] of [IPython.display]. *)
Definition display (a : M val) (raw : bool) : M val :=
  v ← a;
  output (EvDisplay v raw);;
  mret VNone.

(** A bare expression at the end of a script: the notebook shows its value. *)
Definition show (a : M val) : M unit :=
  v ← a; output (EvResult v).

(** What the network answers to a GET of [url]. *)
Definition http (url : string) : M (exn + string) := λ w s, (Ok (http_get w url), s).

(** [pd.read_csv(url)]: one GET of [url]; the frame keeps the body. Whatever
    the HTTP library raises goes to the caller as it is. *)
Definition read_csv (url : M val) : M val :=
  u ← url;
  match u with
  | VStr u =>
      output (λ _, EvFetch u);;
      r ← http u;
      match r with
      | inl x => raise x
      | inr body => new (OObj "DataFrame" [("csv", VStr body)])
      end
  | _ => raise (TypeError "read_csv: not a path or URL")
  end.

(** [pd.options.<path> = a] and [matplotlib.use(a)]: a library-wide setting. *)
Definition set_option (path : string) (a : M val) : M unit :=
  v ← a; modify (set_setting path v).

(** [go.Figure(data=a)]: a figure with its traces and an empty layout. *)
Definition go_Figure (kas : list (string * M val)) : M val :=
  kvs ← kwargs kas;
  layout ← new (ODict []);
  new (OObj "Figure" (dict_set "layout" layout (dict_of_items kvs))).

(** [fig.update_layout(k1=a1, ..., kn=an)]: sets the given properties of the
    figure's layout in place and returns the figure. *)
Definition update_layout (self : M val) (kas : list (string * M val)) : M val :=
  f ← self;
  kvs ← kwargs kas;
  match f with
  | VRef l =>
      o ← load l;
      match o with
      | OObj cls attrs =>
          if decide (cls = "Figure") then
            match dict_get "layout" attrs with
            | Some (VRef ll) =>
                lo ← load ll;
                match lo with
                | ODict d =>
                    store ll (ODict (foldl (λ d kv, dict_set kv.1 kv.2 d) d kvs));;
                    mret f
                | _ => raise (TypeError "layout is not a mapping")
                end
            | _ => raise (TypeError "figure without a layout")
            end
          else raise (TypeError "update_layout: not a figure")
      | _ => raise (TypeError "update_layout: not a figure")
      end
  | _ => raise (TypeError "update_layout: not a figure")
  end.

(** [vega_datasets.data.iris()]: a data set that ships with the package. *)
Definition data_iris : M val :=
  new (OObj "DataFrame" [("dataset", VStr "iris")]).

(** A method of an Altair chart that returns a copy of the chart with one
    more property: [mark_point()] and [encode(...)] are such. *)
Definition chart_with (self : M val) (k : string) (a : M val) : M val :=
  c ← self;
  match c with
  | VRef l =>
      o ← load l;
      match o with
      | OObj cls attrs =>
          if decide (cls = "Chart") then
            v ← a; new (OObj "Chart" (dict_set k v attrs))
          else raise (TypeError "not a chart")
      | _ => raise (TypeError "not a chart")
      end
  | _ => raise (TypeError "not a chart")
  end.

Definition mark_point (self : M val) : M val :=
  chart_with self "mark" (mret (VStr "point")).

Definition encode (self : M val) (kas : list (string * M val)) : M val :=
  chart_with self "encoding" (kvs ← kwargs kas; new (ODict (dict_of_items kvs))).

(** [plt.plot(x, y)]: draws into pyplot's current figure, which it creates
    when there is none, and returns the new lines. *)
Definition get_gcf : M (option val) := λ _ s, (Ok (gcf s), s).

Definition current_figure : M val :=
  g ← get_gcf;
  match g with
  | Some f => mret f
  | None =>
      lines ← new (OList []);
      f ← new (OObj "Figure" [("lines", lines)]);
      modify (set_gcf f);;
      mret f
  end.

Definition plt_plot (x y : M val) : M val :=
  xv ← x;
  yv ← y;
  f ← current_figure;
  line ← new (OObj "Line2D" [("xdata", xv); ("ydata", yv)]);
  match f with
  | VRef l =>
      o ← load l;
      match o with
      | OObj cls attrs =>
          match dict_get "lines" attrs with
          | Some (VRef ll) =>
              lo ← load ll;
              match lo with
              | OList ls => store ll (OList (ls ++ [line]));; new (OList [line])
              | _ => raise (TypeError "lines is not a list")
              end
          | _ => raise (TypeError "not a figure")
          end
      | _ => raise (TypeError "not a figure")
      end
  | _ => raise (TypeError "not a figure")
  end.

(** [plt.show()]: shows the current figure. *)
Definition plt_show : M val :=
  g ← get_gcf; output (EvShow g);; mret VNone.

(** ** Scripts *)

(** A script is the list of its top-level statements ([import] statements
    left out: they only bind module names). A statement that raises ends
    the run: no script has a [try] block. *)
Definition script := list (M unit).

Fixpoint run_from (w : world) (ss : script) (s : state) : result unit * state :=
  match ss with
  | [] => (Ok (), s)
  | st :: ss' =>
      match st w s with
      | (Ok _, s1) => run_from w ss' s1
      | (Raise x, s1) => (Raise x, s1)
      end
  end.

Definition run (w : world) (ss : script) : result unit * state := run_from w ss init.

(** *** [examples/ex-vega.py] *)

Definition vegalite_v5_schema : string := "https://vega.github.io/schema/vega-lite/v5.json".
Definition vega_v5_schema : string := "https://vega.github.io/schema/vega/v5.json".
Definition vegalite_v5_mime : string := "application/vnd.vegalite.v5+json".
Definition vega_v5_mime : string := "application/vnd.vega.v5+json".

Definition vegalite_spec : expr :=
  EDict [
    ("$schema", EStr "https://vega.github.io/schema/vega-lite/v5.json");
    ("description", EStr "A simple bar chart");
    ("data", EDict [
      ("values", EList [
        EDict [("category", EStr "A"); ("value", EInt 28)];
        EDict [("category", EStr "B"); ("value", EInt 55)];
        EDict [("category", EStr "C"); ("value", EInt 43)];
        EDict [("category", EStr "D"); ("value", EInt 91)];
        EDict [("category", EStr "E"); ("value", EInt 81)]
      ])
    ]);
    ("mark", EStr "bar");
    ("encoding", EDict [
      ("x", EDict [("field", EStr "category"); ("type", EStr "nominal")]);
      ("y", EDict [("field", EStr "value"); ("type", EStr "quantitative")]);
      ("color", EDict [("field", EStr "category"); ("type", EStr "nominal")])
    ])
  ].

Definition line_spec : expr :=
  EDict [
    ("$schema", EStr "https://vega.github.io/schema/vega-lite/v5.json");
    ("description", EStr "A line chart with points");
    ("data", EDict [
      ("values", EList [
        EDict [("x", EInt 0); ("y", EInt 0)];
        EDict [("x", EInt 1); ("y", EInt 2)];
        EDict [("x", EInt 2); ("y", EInt 1)];
        EDict [("x", EInt 3); ("y", EInt 4)];
        EDict [("x", EInt 4); ("y", EInt 3)];
        EDict [("x", EInt 5); ("y", EInt 6)]
      ])
    ]);
    ("mark", EDict [("type", EStr "line"); ("point", EBool true)]);
    ("encoding", EDict [
      ("x", EDict [("field", EStr "x"); ("type", EStr "quantitative")]);
      ("y", EDict [("field", EStr "y"); ("type", EStr "quantitative")])
    ])
  ].

Definition vega_spec : expr :=
  EDict [
    ("$schema", EStr "https://vega.github.io/schema/vega/v5.json");
    ("description", EStr "A basic pie chart");
    ("width", EInt 200);
    ("height", EInt 200);
    ("autosize", EStr "none");
    ("signals", EList [
      EDict [("name", EStr "startAngle"); ("value", EInt 0)];
      EDict [("name", EStr "endAngle"); ("value", EFloat "6.29")];
      EDict [("name", EStr "padAngle"); ("value", EFloat "0.02")];
      EDict [("name", EStr "innerRadius"); ("value", EInt 0)];
      EDict [("name", EStr "sort"); ("value", EBool true)]
    ]);
    ("data", EList [
      EDict [
        ("name", EStr "table");
        ("values", EList [
          EDict [("id", EInt 1); ("field", EInt 4)];
          EDict [("id", EInt 2); ("field", EInt 6)];
          EDict [("id", EInt 3); ("field", EInt 10)];
          EDict [("id", EInt 4); ("field", EInt 3)];
          EDict [("id", EInt 5); ("field", EInt 7)]
        ]);
        ("transform", EList [
          EDict [
            ("type", EStr "pie");
            ("field", EStr "field");
            ("startAngle", EDict [("signal", EStr "startAngle")]);
            ("endAngle", EDict [("signal", EStr "endAngle")]);
            ("sort", EDict [("signal", EStr "sort")])
          ]
        ])
      ]
    ]);
    ("scales", EList [
      EDict [
        ("name", EStr "color");
        ("type", EStr "ordinal");
        ("domain", EDict [("data", EStr "table"); ("field", EStr "id")]);
        ("range", EDict [("scheme", EStr "category20")])
      ]
    ]);
    ("marks", EList [
      EDict [
        ("type", EStr "arc");
        ("from", EDict [("data", EStr "table")]);
        ("encode", EDict [
          ("enter", EDict [
            ("fill", EDict [("scale", EStr "color"); ("field", EStr "id")]);
            ("x", EDict [("signal", EStr "width / 2")]);
            ("y", EDict [("signal", EStr "height / 2")])
          ]);
          ("update", EDict [
            ("startAngle", EDict [("field", EStr "startAngle")]);
            ("endAngle", EDict [("field", EStr "endAngle")]);
            ("padAngle", EDict [("signal", EStr "padAngle")]);
            ("innerRadius", EDict [("signal", EStr "innerRadius")]);
            ("outerRadius", EDict [("signal", EStr "width / 2")])
          ])
        ])
      ]
    ])
  ].

Definition scatter_spec : expr :=
  EDict [
    ("$schema", EStr "https://vega.github.io/schema/vega-lite/v5.json");
    ("description", EStr "Scatter plot with tooltips");
    ("data", EDict [
      ("values", EList [
        EDict [("x", EInt 1); ("y", EInt 2); ("label", EStr "Point A")];
        EDict [("x", EInt 2); ("y", EInt 5); ("label", EStr "Point B")];
        EDict [("x", EInt 3); ("y", EInt 3); ("label", EStr "Point C")];
        EDict [("x", EInt 4); ("y", EInt 8); ("label", EStr "Point D")];
        EDict [("x", EInt 5); ("y", EInt 6); ("label", EStr "Point E")]
      ])
    ]);
    ("mark", EDict [("type", EStr "circle"); ("size", EInt 100)]);
    ("encoding", EDict [
      ("x", EDict [("field", EStr "x"); ("type", EStr "quantitative"); ("title", EStr "X Axis")]);
      ("y", EDict [("field", EStr "y"); ("type", EStr "quantitative"); ("title", EStr "Y Axis")]);
      ("color", EDict [("field", EStr "label"); ("type", EStr "nominal")]);
      ("tooltip", EList [
        EDict [("field", EStr "label"); ("type", EStr "nominal")];
        EDict [("field", EStr "x"); ("type", EStr "quantitative")];
        EDict [("field", EStr "y"); ("type", EStr "quantitative")]
      ])
    ])
  ].

Definition ex_vega : script := [
  "vegalite_spec" ::= construct vegalite_spec;
  exec (display (construct (EDict [("application/vnd.vegalite.v5+json", EName "vegalite_spec")])) true);
  "line_spec" ::= construct line_spec;
  exec (display (construct (EDict [("application/vnd.vegalite.v5+json", EName "line_spec")])) true);
  "vega_spec" ::= construct vega_spec;
  exec (display (construct (EDict [("application/vnd.vega.v5+json", EName "vega_spec")])) true);
  "scatter_spec" ::= construct scatter_spec;
  exec (display (construct (EDict [("application/vnd.vegalite.v5+json", EName "scatter_spec")])) true)
].

(** *** [examples/ex-pandas-2.py] *)

Definition iris_url : string :=
  "https://archive.ics.uci.edu/ml/machine-learning-databases/iris/iris.data".

Definition ex_pandas_2 : script := [
  set_option "pd.options.display.html.table_schema" (construct (EBool true));
  set_option "pd.options.display.max_rows" (construct ENone);
  "iris_url" ::= construct (EStr iris_url);
  "df1" ::= read_csv (var "iris_url");
  show (var "df1")
].

(** *** [examples/ex-plotly-2.py] *)

Definition mt_bruno_url : string :=
  "https://raw.githubusercontent.com/plotly/datasets/master/api_docs/mt_bruno_elevation.csv".

Definition camera : expr :=
  EDict [
    ("up", EDict [("x", EInt 0); ("y", EInt 0); ("z", EInt 1)]);
    ("center", EDict [("x", EInt 0); ("y", EInt 0); ("z", EInt 0)]);
    ("eye", EDict [("x", EFloat "1.25"); ("y", EFloat "1.25"); ("z", EFloat "1.25")])
  ].

Definition ex_plotly_2 : script := [
  "z_data" ::= read_csv (construct (EStr mt_bruno_url));
  "fig" ::= go_Figure [("data", instance "Surface" [("z", var "z_data");
                                                   ("showscale", construct (EBool false))])];
  exec (update_layout (var "fig") [
    ("title", construct (EStr "Mt Bruno Elevation"));
    ("width", construct (EInt 500));
    ("height", construct (EInt 500));
    ("margin", construct (EDict [("t", EInt 40); ("r", EInt 0); ("l", EInt 20); ("b", EInt 20)]))
  ]);
  "camera" ::= construct camera;
  exec (update_layout (var "fig") [("scene_camera", var "camera")]);
  exec (display (var "fig") false)
].

(** *** [examples/ex-altair.py] *)

Definition ex_altair : script := [
  "iris" ::= data_iris;
  "spec" ::= encode (mark_point (instance "Chart" [("data", var "iris")])) [
    ("x", construct (EStr "petalLength"));
    ("y", construct (EStr "petalWidth"));
    ("color", construct (EStr "species"))
  ];
  show (var "spec")
].

(** *** [examples/ex-matplotlib_1.py] *)

Definition ex_matplotlib_1 : script := [
  set_option "matplotlib.backend" (construct (EStr "Qt5Agg"));
  "t" ::= instance "linspace" [("start", construct (EInt 0)); ("stop", construct (EInt 20));
                               ("num", construct (EInt 500))];
  exec (plt_plot (var "t") (instance "sin" [("x", var "t")]));
  exec plt_show
].

(** *** [examples/ex-markdown-test.py] *)

Definition nl : string := String (ascii_of_nat 10) EmptyString.
Definition dq : string := String (ascii_of_nat 34) EmptyString.

(** The text of the triple-quoted literal: a line break, then these lines,
    each ended by a line break. *)
Definition markdown_lines : list string := [
    "# Heading 1";
    "## Heading 2";
    "### Heading 3";
    "";
    "**Bold text** and *italic text*";
    "";
    "- List item 1";
    "- List item 2";
    "- List item 3";
    "";
    "1. Numbered item";
    "2. Numbered item";
    "";
    "`inline code`";
    "";
    "```python";
    "def hello():";
    "    print(" +:+ dq +:+ "code block" +:+ dq +:+ ")";
    "```";
    "";
    "> Blockquote text";
    "";
    "[Link text](https://example.com)";
    "";
    "---";
    "";
    "| Column 1 | Column 2 |";
    "|----------|----------|";
    "| Cell 1   | Cell 2   |";
    "| Cell 3   | Cell 4   |"
].

Definition markdown_text : string :=
  nl +:+ foldr (λ l r, l +:+ nl +:+ r) EmptyString markdown_lines.

Definition ex_markdown_test : script := [
  exec (display (instance "Markdown" [("data", construct (EStr markdown_text))]) false)
].

(** The scripts of the repository. *)
Definition scripts : list (string * script) := [
  ("ex-altair.py", ex_altair);
  ("ex-markdown-test.py", ex_markdown_test);
  ("ex-matplotlib_1.py", ex_matplotlib_1);
  ("ex-pandas-2.py", ex_pandas_2);
  ("ex-plotly-2.py", ex_plotly_2);
  ("ex-vega.py", ex_vega)
].

(** ** Observing a run *)

(** The state after the first [k] statements of a script (or at the
    statement that raised, when one of them did). *)
Definition after (w : world) (ss : script) (k : nat) : state := (run w (take k ss)).2.

(** What the name [x] denotes after [k] statements. *)
Definition seen (w : world) (ss : script) (k : nat) (x : string) : option doc :=
  v ← globals (after w ss k) !! x; deep (st_heap (after w ss k)) v.

(** The URLs a run fetched, in order. *)
Definition fetched (s : state) : list string :=
  omap (λ ev, match ev with EvFetch u => Some u | _ => None end) (log s).

(** The payloads of the calls [display(payload, raw=True)] of a run, in
    order, as the front end reads them. *)
Definition raw_payloads (s : state) : list doc :=
  omap (λ ev, match ev with EvDisplay v true h => deep h v | _ => None end) (log s).

(** Everything a run showed: the values of [display(...)], of a final
    expression and of [plt.show()], as the front end reads them. *)
Definition shown (s : state) : list doc :=
  omap (λ ev, match ev with
              | EvDisplay v _ h | EvResult v h | EvShow (Some v) h => deep h v
              | _ => None
              end) (log s).

(** Access to documents. *)
Definition field (k : string) (d : doc) : option doc :=
  match d with DDict items => dict_get k items | _ => None end.

Definition items_of (d : doc) : list (string * doc) :=
  match d with DDict items => items | _ => [] end.

Definition elements (d : doc) : list doc :=
  match d with DList xs => xs | _ => [] end.

Definition keys (d : doc) : list string := (items_of d).*1.

Definition is_scalar (d : doc) : bool :=
  match d with
  | DBool _ | DInt _ | DFloat _ | DStr _ => true
  | _ => false
  end.

(** A raw payload is a MIME bundle: a dict from MIME type to data. The
    declarative chart documents of the repository are the data of the
    bundles its scripts display. *)
Definition documents_of (s : state) : list doc :=
  b ← raw_payloads s; (items_of b).*2.

Definition chart_documents (w : world) : list doc :=
  p ← scripts; documents_of (run w p.2).2.

(** ** Chart grammars *)

(** The records of a Vega-Lite document: [spec["data"]["values"]]. *)
Definition vl_records (spec : doc) : list doc :=
  default [] (elements <$> (field "data" spec ≫= field "values")).

(** The channel definitions of a Vega-Lite document: the values of
    [spec["encoding"]], a list of definitions (as for [tooltip]) counting
    for each of its elements. *)
Definition vl_channels (spec : doc) : list doc :=
  c ← (items_of (default DNone (field "encoding" spec))).*2;
  match c with DList cs => cs | _ => [c] end.

(** The data sets of a Vega document, by name: the entries of
    [spec["data"]]. *)
Definition named (name : string) (d : doc) : bool :=
  match field "name" d with
  | Some (DStr n) => bool_decide (n = name)
  | _ => false
  end.

Definition vega_dataset (spec : doc) (name : string) : option doc :=
  head (filter (λ ds, named name ds = true) (elements (default DNone (field "data" spec)))).

Definition vega_records (spec : doc) (name : string) : list doc :=
  default [] (elements <$> (vega_dataset spec name ≫= field "values")).

(** The channel definitions of a Vega mark, every encoding set ([enter],
    [update]) together. *)
Definition mark_channels (mark : doc) : list doc :=
  set ← (items_of (default DNone (field "encode" mark))).*2;
  (items_of set).*2.

(** The name of the data set a Vega mark draws: [mark["from"]["data"]]. *)
Definition mark_dataset (mark : doc) : option string :=
  match field "from" mark ≫= field "data" with
  | Some (DStr name) => Some name
  | _ => None
  end.

(** The field a channel definition reads, if it reads one. *)
Definition channel_field (c : doc) : option string :=
  match field "field" c with
  | Some (DStr f) => Some f
  | _ => None
  end.

(** [f] is a key of every record. *)
Definition in_every_record (records : list doc) (f : string) : bool :=
  forallb (λ r, bool_decide (f ∈ keys r)) records.

(** The data sets written in a document: every list under a key
    [values]. *)
Definition datasets (spec : doc) : list (list doc) :=
  match field "$schema" spec with
  | Some (DStr "https://vega.github.io/schema/vega/v5.json") =>
      omap (λ ds, elements <$> field "values" ds)
        (elements (default DNone (field "data" spec)))
  | _ => [vl_records spec]
  end.

(** ** What a run may depend on *)

(** Two worlds whose networks answer alike; command line, environment and
    files may differ. *)
Definition same_network (w w' : world) : Prop := ∀ u, http_get w u = http_get w' u.

(** An action that reads nothing of the world but the network's answers. *)
Definition network_only {A} (m : M A) : Prop :=
  ∀ w w' s, same_network w w' → m w s = m w' s.

(** The world [w] with the answer to a GET of [u] written out. *)
Definition answering (w : world) (u : string) (r : exn + string) : world :=
  {| http_get := λ u', if decide (u' = u) then r else http_get w u';
     argv := argv w; environ := environ w; files := files w |}.

(** The document a closed display denotes ([DNone] for one with a name). *)
Definition the (e : expr) : doc := default DNone (literal e).

(** ** Worlds to run the scripts in *)

(** No network: every GET raises. *)
Definition offline : world :=
  {| http_get := λ _, inl (URLError "unreachable"); argv := []; environ := ∅; files := ∅ |}.

(** A network that answers every GET with [body]. *)
Definition online (body : string) : world :=
  {| http_get := λ _, inr body; argv := []; environ := ∅; files := ∅ |}.

(** ** The properties of chart documents the specification names *)

(** The fields the encoding channels of a Vega-Lite document read. *)
Definition vl_fields (spec : doc) : list string := omap channel_field (vl_channels spec).

(** The fields the marks of a Vega document read, each with the name of the
    data set of its mark. *)
Definition vega_mark_fields (spec : doc) : list (string * string) :=
  m ← elements (default DNone (field "marks" spec));
  match mark_dataset m with
  | Some name => (λ f, (name, f)) <$> omap channel_field (mark_channels m)
  | None => []
  end.

Definition is_vega (spec : doc) : bool :=
  match field "$schema" spec with
  | Some (DStr s) => bool_decide (s = vega_v5_schema)
  | _ => false
  end.

(** Every field a channel reads is a key of every record of the data set
    the channel draws from. *)
Definition encodings_bound (spec : doc) : bool :=
  if is_vega spec
  then forallb (λ nf, in_every_record (vega_records spec nf.1) nf.2) (vega_mark_fields spec)
  else forallb (in_every_record (vl_records spec)) (vl_fields spec).

(** The fields a transform of a Vega data set adds to each record. Of the
    transforms the scripts use only [pie] adds any: [startAngle] and
    [endAngle], unless its [as] parameter names others. (This is Vega's
    documented behaviour; the renderer is no part of the repository.) *)
Definition transform_fields (t : doc) : list string :=
  match field "type" t with
  | Some (DStr ty) =>
      if decide (ty = "pie") then
        match field "as" t with
        | Some (DList [DStr a; DStr b]) => [a; b]
        | _ => ["startAngle"; "endAngle"]
        end
      else []
  | _ => []
  end.

Definition derived_fields (spec : doc) (name : string) : list string :=
  t ← elements (default DNone (vega_dataset spec name ≫= field "transform"));
  transform_fields t.

(** All records have the same set of keys as [r]. *)
Definition same_keys (r r' : doc) : bool :=
  bool_decide (list_to_set (keys r) =@{gset string} list_to_set (keys r')).

(** A data set whose records are dicts over one set of keys with scalar
    values. *)
Definition uniform (records : list doc) : bool :=
  forallb (λ r,
    match r with
    | DDict kds => forallb (same_keys r) records && forallb is_scalar kds.*2
    | _ => false
    end) records.

(** The data sets as the source writes them: the list displays under
    [values], read off the display and not off the object built from it. *)
Definition written_field (k : string) (e : expr) : option expr :=
  match e with EDict kes => dict_get k (dict_of_items kes) | _ => None end.

Definition written_elements (e : expr) : list expr :=
  match e with EList es => es | _ => [] end.

Definition written_datasets (e : expr) : list (list expr) :=
  match written_field "data" e with
  | Some (EList dss) => omap (λ ds, written_elements <$> written_field "values" ds) dss
  | Some ds => [default [] (written_elements <$> written_field "values" ds)]
  | None => []
  end.

(** What the displays of a run were called with: the [raw] flag and the
    payload as the front end reads it. *)
Definition displays (s : state) : list (bool * option doc) :=
  omap (λ ev, match ev with EvDisplay v raw h => Some (raw, deep h v) | _ => None end) (log s).

(** ** Frames *)

(** What a name denotes in a state. *)
Definition denotes (s : state) (x : string) : option doc :=
  globals s !! x ≫= deep (st_heap s).

(** Everything a name that satisfies [P] denoted in [s] it still denotes
    in [s']. *)
Definition keeps_on (P : string → bool) (s s' : state) : Prop :=
  Forall (λ xv, P xv.1 = true →
                ∀ d, deep (st_heap s) xv.2 = Some d → denotes s' xv.1 = Some d)
    (map_to_list (globals s)).

(** No statement of the script changes what a name that satisfies [P] and
    was bound earlier denotes. *)
Definition unchanged_on (P : string → bool) (w : world) (ss : script) : Prop :=
  ∀ x i j d, P x = true → i ≤ j → seen w ss i x = Some d → seen w ss j x = Some d.

Definition unchanged (w : world) (ss : script) : Prop := unchanged_on (λ _, true) w ss.

(** An attribute of a library object. *)
Definition attr (k : string) (d : doc) : option doc :=
  match d with DObj _ kds => dict_get k kds | _ => None end.

(** A step that only allocates and binds: no output, no change of a
    library setting or of pyplot's current figure, no object changed. *)
Definition only_allocates (s s' : state) : Prop :=
  log s' = log s ∧ settings s' = settings s ∧ gcf s' = gcf s ∧
  st_heap s `prefix_of` st_heap s' ∧ globals s ⊆ globals s'.

(** The fields the [tooltip] channel of a Vega-Lite document reads. *)
Definition tooltip_fields (spec : doc) : list string :=
  omap channel_field (elements (default DNone (field "encoding" spec ≫= field "tooltip"))).

(** ** JSON *)

(** A declarative chart document travels as JSON text: [display] hands the
    payload to the notebook's messaging layer, which writes it with
    [json.dumps] and the front end reads it back. This is the writer with
    Python's defaults (separators [", "] and [": "], [ensure_ascii]) and a
    reader for what it writes. A character of a string is one byte here. *)

Definition dquote : ascii := ascii_of_nat 34.
Definition backslash : ascii := ascii_of_nat 92.

Definition hex_digit (n : nat) : ascii :=
  default "0"%char (["0"; "1"; "2"; "3"; "4"; "5"; "6"; "7"; "8"; "9";
                     "a"; "b"; "c"; "d"; "e"; "f"]%char !! n).

(** [ESCAPE_DCT] of [json.encoder], and [\u00XX] for every other character
    outside the printable ASCII range. *)
Definition escape_char (c : ascii) : string :=
  let n := nat_of_ascii c in
  if decide (n = 34) then String backslash (String dquote EmptyString)
  else if decide (n = 92) then String backslash (String backslash EmptyString)
  else if decide (n = 8) then String backslash "b"
  else if decide (n = 12) then String backslash "f"
  else if decide (n = 10) then String backslash "n"
  else if decide (n = 13) then String backslash "r"
  else if decide (n = 9) then String backslash "t"
  else if decide (n < 32 ∨ 126 < n) then
    String backslash
      (String "u" (String "0" (String "0"
        (String (hex_digit (n `div` 16)) (String (hex_digit (n `mod` 16)) EmptyString)))))
  else String c EmptyString.

Fixpoint escape (s : string) : string :=
  match s with
  | EmptyString => EmptyString
  | String c s' => escape_char c +:+ escape s'
  end.

Definition quoted (s : string) : string :=
  String dquote (escape s +:+ String dquote EmptyString).

(** An [int] in decimal. *)
Definition dump_int (n : Z) : string := NilEmpty.string_of_int (Z.to_int n).

Section dump_items.
Variable dump : doc → option string.

(** The elements of an array and its closing bracket. *)
Fixpoint dump_elements (xs : list doc) : option string :=
  match xs with
  | [] => Some "]"
  | x :: xs' =>
      match dump x, xs' with
      | Some t, [] => Some (t +:+ "]")
      | Some t, _ :: _ =>
          match dump_elements xs' with
          | Some r => Some (t +:+ ", " +:+ r)
          | None => None
          end
      | None, _ => None
      end
  end.

(** The members of an object and its closing brace. *)
Fixpoint dump_members (kds : list (string * doc)) : option string :=
  match kds with
  | [] => Some "}"
  | (k, x) :: kds' =>
      match dump x, kds' with
      | Some t, [] => Some (quoted k +:+ ": " +:+ t +:+ "}")
      | Some t, _ :: _ =>
          match dump_members kds' with
          | Some r => Some (quoted k +:+ ": " +:+ t +:+ ", " +:+ r)
          | None => None
          end
      | None, _ => None
      end
  end.
End dump_items.

(** [json.dumps(d)]; [None] where Python raises [TypeError] (an object of a
    library class is not JSON serializable). *)
Fixpoint dumps (d : doc) : option string :=
  match d with
  | DNone => Some "null"
  | DBool true => Some "true"
  | DBool false => Some "false"
  | DInt n => Some (dump_int n)
  | DFloat r => Some r
  | DStr s => Some (quoted s)
  | DList xs =>
      match dump_elements dumps xs with
      | Some r => Some ("[" +:+ r)
      | None => None
      end
  | DDict kds =>
      match dump_members dumps kds with
      | Some r => Some ("{" +:+ r)
      | None => None
      end
  | DObj _ _ => None
  end.

(** *** Reading *)

Definition is_ws (c : ascii) : bool :=
  bool_decide (nat_of_ascii c ∈ [32; 9; 10; 13]).

Fixpoint skip_ws (s : string) : string :=
  match s with
  | EmptyString => EmptyString
  | String c s' => if is_ws c then skip_ws s' else s
  end.

Definition hex_value (c : ascii) : option nat :=
  let n := nat_of_ascii c in
  if decide (48 ≤ n ≤ 57) then Some (n - 48)
  else if decide (97 ≤ n ≤ 102) then Some (n - 87)
  else if decide (65 ≤ n ≤ 70) then Some (n - 55)
  else None.

(** The character an escape sequence stands for, given what follows the
    backslash, and the rest of the text. *)
Definition parse_escape (s : string) : option (ascii * string) :=
  match s with
  | String c s' =>
      let n := nat_of_ascii c in
      if decide (n = 34) then Some (dquote, s')
      else if decide (n = 92) then Some (backslash, s')
      else if decide (n = 47) then Some ("/"%char, s')
      else if decide (n = 98) then Some (ascii_of_nat 8, s')
      else if decide (n = 102) then Some (ascii_of_nat 12, s')
      else if decide (n = 110) then Some (ascii_of_nat 10, s')
      else if decide (n = 114) then Some (ascii_of_nat 13, s')
      else if decide (n = 116) then Some (ascii_of_nat 9, s')
      else if decide (n = 117) then
        match s' with
        | String h1 (String h2 (String h3 (String h4 s''))) =>
            match hex_value h1, hex_value h2, hex_value h3, hex_value h4 with
            | Some a, Some b, Some c, Some d =>
                if decide (a = 0 ∧ b = 0) then Some (ascii_of_nat (16 * c + d), s'') else None
            | _, _, _, _ => None
            end
        | _ => None
        end
      else None
  | EmptyString => None
  end.

(** The text of a string up to its closing quote, and what follows the
    quote. [n] bounds the number of characters read. *)
Fixpoint parse_string (n : nat) (s : string) : option (string * string) :=
  match n with
  | 0 => None
  | S n' =>
      match s with
      | EmptyString => None
      | String c s' =>
          if decide (nat_of_ascii c = 34) then Some (EmptyString, s')
          else if decide (nat_of_ascii c = 92) then
            match parse_escape s' with
            | Some (c', s'') =>
                match parse_string n' s'' with
                | Some (t, r) => Some (String c' t, r)
                | None => None
                end
            | None => None
            end
          else if decide (nat_of_ascii c < 32) then None
          else
            match parse_string n' s' with
            | Some (t, r) => Some (String c t, r)
            | None => None
            end
      end
  end.

Definition number_char (c : ascii) : bool :=
  let n := nat_of_ascii c in
  bool_decide (48 ≤ n ≤ 57 ∨ n ∈ [43; 45; 46; 69; 101]).

(** The longest prefix of number characters, and the rest. *)
Fixpoint span_number (s : string) : string * string :=
  match s with
  | EmptyString => (EmptyString, EmptyString)
  | String c s' =>
      if number_char c then
        let '(t, r) := span_number s' in (String c t, r)
      else (EmptyString, s)
  end.

(** A number with a fraction or an exponent is a [float]. *)
Fixpoint float_syntax (t : string) : bool :=
  match t with
  | EmptyString => false
  | String c t' => bool_decide (nat_of_ascii c ∈ [46; 69; 101]) || float_syntax t'
  end.

Definition parse_number (s : string) : option (doc * string) :=
  let '(t, r) := span_number s in
  if float_syntax t then Some (DFloat t, r)
  else
    match NilEmpty.int_of_string t with
    | Some i => Some (DInt (Z.of_int i), r)
    | None => None
    end.

(** [s] starts with [word]: what follows it. *)
Fixpoint expect (word s : string) : option string :=
  match word, s with
  | EmptyString, _ => Some s
  | String c word', String c' s' => if decide (c = c') then expect word' s' else None
  | String _ _, EmptyString => None
  end.

Section parse_items.
Variable parse : string → option (doc * string).

(** The elements of an array that is not empty, up to the closing bracket. *)
Fixpoint parse_elements (n : nat) (s : string) : option (list doc * string) :=
  match n with
  | 0 => None
  | S n' =>
      match parse s with
      | Some (x, r) =>
          match skip_ws r with
          | String c r' =>
              if decide (nat_of_ascii c = 93) then Some ([x], r')
              else if decide (nat_of_ascii c = 44) then
                match parse_elements n' r' with
                | Some (xs, r'') => Some (x :: xs, r'')
                | None => None
                end
              else None
          | EmptyString => None
          end
      | None => None
      end
  end.

(** The members of an object that is not empty, up to the closing brace. *)
Fixpoint parse_members (n : nat) (s : string) : option (list (string * doc) * string) :=
  match n with
  | 0 => None
  | S n' =>
      match skip_ws s with
      | String q s1 =>
          if decide (nat_of_ascii q = 34) then
            match parse_string (String.length s1) s1 with
            | Some (k, s2) =>
                match skip_ws s2 with
                | String c s3 =>
                    if decide (nat_of_ascii c = 58) then
                      match parse s3 with
                      | Some (x, r) =>
                          match skip_ws r with
                          | String c' r' =>
                              if decide (nat_of_ascii c' = 125) then Some ([(k, x)], r')
                              else if decide (nat_of_ascii c' = 44) then
                                match parse_members n' r' with
                                | Some (kxs, r'') => Some ((k, x) :: kxs, r'')
                                | None => None
                                end
                              else None
                          | EmptyString => None
                          end
                      | None => None
                      end
                    else None
                | EmptyString => None
                end
            | None => None
            end
          else None
      | EmptyString => None
      end
  end.
End parse_items.

(** A value, after any white space, and what follows it. [n] bounds the
    nesting and the number of elements of an array or object. *)
Fixpoint parse_value (n : nat) (s : string) : option (doc * string) :=
  match n with
  | 0 => None
  | S n' =>
      match skip_ws s with
      | EmptyString => None
      | String c s1 =>
          let k := nat_of_ascii c in
          if decide (k = 110) then                      (* n *)
            match expect "ull" s1 with Some r => Some (DNone, r) | None => None end
          else if decide (k = 116) then                 (* t *)
            match expect "rue" s1 with Some r => Some (DBool true, r) | None => None end
          else if decide (k = 102) then                 (* f *)
            match expect "alse" s1 with Some r => Some (DBool false, r) | None => None end
          else if decide (k = 34) then
            match parse_string (String.length s1) s1 with
            | Some (t, r) => Some (DStr t, r)
            | None => None
            end
          else if decide (k = 91) then                  (* [ *)
            match skip_ws s1 with
            | String c2 s2 =>
                if decide (nat_of_ascii c2 = 93) then Some (DList [], s2)
                else
                  match parse_elements (parse_value n') n' s1 with
                  | Some (xs, r) => Some (DList xs, r)
                  | None => None
                  end
            | EmptyString => None
            end
          else if decide (k = 123) then                 (* { *)
            match skip_ws s1 with
            | String c2 s2 =>
                if decide (nat_of_ascii c2 = 125) then Some (DDict [], s2)
                else
                  match parse_members (parse_value n') n' s1 with
                  | Some (kxs, r) => Some (DDict (dict_of_items kxs), r)
                  | None => None
                  end
            | EmptyString => None
            end
          else if decide (k = 45 ∨ 48 ≤ k ≤ 57) then parse_number (String c s1)
          else None
      end
  end.

(** [json.loads(s)]: one value and nothing but white space after it. A text
    of [n] characters holds fewer than [n] values. *)
Definition loads (s : string) : option doc :=
  match parse_value (String.length s) s with
  | Some (d, r) => match skip_ws r with EmptyString => Some d | _ => None end
  | None => None
  end.

(** The documents JSON can carry as they are: no library objects, floats
    written as numbers, no key twice in an object. *)
Definition float_repr (r : string) : bool :=
  match r with
  | EmptyString => false
  | String c _ =>
      bool_decide (nat_of_ascii c = 45 ∨ 48 ≤ nat_of_ascii c ≤ 57) &&
      forallb number_char (list_ascii_of_string r) && float_syntax r
  end.

Fixpoint json_native (d : doc) : bool :=
  match d with
  | DNone | DBool _ | DInt _ | DStr _ => true
  | DFloat r => float_repr r
  | DList xs => forallb json_native xs
  | DDict kds => bool_decide (NoDup kds.*1) && forallb (λ kd, json_native kd.2) kds
  | DObj _ _ => false
  end.

(** The number of values in a document. *)
Fixpoint size (d : doc) : nat :=
  match d with
  | DList xs => S (foldr (λ x n, size x + n) 0 xs)
  | DDict kds | DObj _ kds => S (foldr (λ kd n, size kd.2 + n) 0 kds)
  | _ => 1
  end.

(** What may follow a number: not a character that would be read as part
    of it. *)
Definition ends_number (rest : string) : Prop :=
  match rest with
  | String c _ => number_char c = false
  | EmptyString => True
  end.

(** A written document reads back as it was, whatever follows it. *)
Definition reads_back (d : doc) : Prop :=
  json_native d = true → ∀ t, dumps d = Some t →
  ∀ n rest, size d ≤ n → ends_number rest →
  parse_value n (t +:+ rest) = Some (d, rest).

(** A number starts with a digit or a minus sign. *)
Definition number_start (c : ascii) : Prop :=
  nat_of_ascii c = 45 ∨ 48 ≤ nat_of_ascii c ≤ 57.

(** A text is at least as long as the document it holds is large. *)
Definition fits (d : doc) : Prop :=
  json_native d = true → ∀ t, dumps d = Some t → size d ≤ String.length t.

(** Modelled from the spec: the declarative JSON form of a chart object
    (its section 3 describes a chart specification as a document of nested
    mappings for the data reference, the mark, the encoding channels and the
    layout). The charting libraries compute this form ([to_dict] of Altair
    and of plotly); the repository has no code for it. Here an object of a
    library class becomes the mapping of its properties, through and
    through; a document that holds no such object is left as it is. *)
Fixpoint to_dict (d : doc) : doc :=
  match d with
  | DList xs => DList (to_dict <$> xs)
  | DDict kds => DDict ((λ kd, (kd.1, to_dict kd.2)) <$> kds)
  | DObj _ kds => DDict ((λ kd, (kd.1, to_dict kd.2)) <$> kds)
  | _ => d
  end.

(** Everything the scripts of the repository show, script by script. *)
Definition all_shown (w : world) : list doc := p ← scripts; shown (run w p.2).2.

(** ** References between the parts of a Vega document *)

(** The names a section of a Vega document ([signals], [data], [scales])
    declares: the [name] of each of its entries. *)
Definition declared (section : string) (spec : doc) : list string :=
  omap (λ d, match field "name" d with Some (DStr n) => Some n | _ => None end)
    (elements (default DNone (field section spec))).

(** The name under key [k] of a reference such as [{"scale": "color"}]. *)
Definition reference (k : string) (d : doc) : option string :=
  match field k d with
  | Some (DStr n) => Some n
  | _ => None
  end.

(** The scales the channels of the marks name. *)
Definition scale_references (spec : doc) : list string :=
  m ← elements (default DNone (field "marks" spec));
  omap (reference "scale") (mark_channels m).

(** The data sets the marks draw and the domains of the scales read. *)
Definition data_references (spec : doc) : list string :=
  omap mark_dataset (elements (default DNone (field "marks" spec))) ++
  omap (λ sc, field "domain" sc ≫= reference "data")
    (elements (default DNone (field "scales" spec))).

(** The signal expressions of the parameters of the transforms and of the
    channels of the marks. *)
Definition signal_references (spec : doc) : list string :=
  (ds ← elements (default DNone (field "data" spec));
   t ← elements (default DNone (field "transform" ds));
   omap (reference "signal") (items_of t).*2) ++
  (m ← elements (default DNone (field "marks" spec));
   omap (reference "signal") (mark_channels m)).

(** ** Texts *)

(** The pieces of a text between its line breaks, as [str.split] on a line
    break gives them. *)
Fixpoint split_lines (s : string) : list string :=
  match s with
  | EmptyString => [EmptyString]
  | String c s' =>
      if Ascii.eqb c (ascii_of_nat 10) then EmptyString :: split_lines s'
      else match split_lines s' with
           | l :: ls => String c l :: ls
           | [] => [String c EmptyString]
           end
  end.

(** How often a character occurs in a text. *)
Fixpoint occurrences (c : ascii) (s : string) : nat :=
  match s with
  | EmptyString => 0
  | String c' s' => (if Ascii.eqb c c' then 1 else 0) + occurrences c s'
  end.

(** The objects the display calls of a run carried in their bundles, each
    bundle a dict of one MIME type. *)
Definition bundled (s : state) : list val :=
  omap (λ ev, match ev with
              | EvDisplay (VRef b) _ h =>
                  match h !! b with
                  | Some (ODict [(_, v)]) => Some v
                  | _ => None
                  end
              | _ => None
              end) (log s).

(** * Properties *)

(** ** Evaluation of displays *)

(** Induction over displays, with the hypothesis for every element of a list
    display and every item of a dict display. *)
Lemma expr_ind' (P : expr → Prop) :
  P ENone → (∀ b, P (EBool b)) → (∀ n, P (EInt n)) → (∀ r, P (EFloat r)) →
  (∀ s, P (EStr s)) → (∀ x, P (EName x)) →
  (∀ es, Forall P es → P (EList es)) →
  (∀ kes, Forall (λ ke, P ke.2) kes → P (EDict kes)) →
  ∀ e, P e.
Proof.
  intros HN HB HI HF HS HX HL HD.
  fix IH 1. intros [| b | n | r | s | x | es | kes].
  - apply HN.
  - apply HB.
  - apply HI.
  - apply HF.
  - apply HS.
  - apply HX.
  - apply HL. induction es as [|e es IHes]; constructor; [apply IH | apply IHes].
  - apply HD. induction kes as [|[k e] kes IHkes]; constructor; [apply IH | apply IHkes].
Qed.

Lemma alloc_spec o h : alloc o h = (Ok (VRef (length h)), h ++ [o]).
Proof. reflexivity. Qed.

(** Evaluation only allocates: the heap it starts from is a prefix of the
    heap it ends with, whether it raises or not. *)
Lemma eval_list_prefix ev es :
  Forall (λ e, ∀ h r h', ev e h = (r, h') → h `prefix_of` h') es →
  ∀ h r h', eval_list ev es h = (r, h') → h `prefix_of` h'.
Proof.
  induction 1 as [|e es He _ IH]; intros h r h' Hev; simpl in Hev.
  - by inversion Hev.
  - destruct (ev e h) as [[v|x] h1] eqn:E1.
    + destruct (eval_list ev es h1) as [[vs|x] h2] eqn:E2; inversion Hev; subst;
        (etrans; [by eapply He | by eapply IH]).
    + inversion Hev; subst. by eapply He.
Qed.

Lemma eval_items_prefix ev kes :
  Forall (λ ke, ∀ h r h', ev ke.2 h = (r, h') → h `prefix_of` h') kes →
  ∀ h r h', eval_items ev kes h = (r, h') → h `prefix_of` h'.
Proof.
  induction 1 as [|[k e] kes He _ IH]; intros h r h' Hev; simpl in Hev.
  - by inversion Hev.
  - simpl in He. destruct (ev e h) as [[v|x] h1] eqn:E1.
    + destruct (eval_items ev kes h1) as [[vs|x] h2] eqn:E2; inversion Hev; subst;
        (etrans; [by eapply He | by eapply IH]).
    + inversion Hev; subst. by eapply He.
Qed.

Lemma eval_prefix g e : ∀ h r h', eval g e h = (r, h') → h `prefix_of` h'.
Proof.
  induction e as [| | | | |x|es IH|kes IH] using expr_ind'; intros h res h' Hev;
    simpl in Hev; try (by inversion Hev).
  - destruct (g !! x); by inversion Hev.
  - destruct (eval_list (eval g) es h) as [[vs|x] h1] eqn:E.
    + inversion Hev; subst. etrans; [by eapply eval_list_prefix|by apply prefix_app_r].
    + inversion Hev; subst. by eapply eval_list_prefix.
  - destruct (eval_items (eval g) kes h) as [[vs|x] h1] eqn:E.
    + inversion Hev; subst. etrans; [by eapply eval_items_prefix|by apply prefix_app_r].
    + inversion Hev; subst. by eapply eval_items_prefix.
Qed.

(** A list display allocates a list with one slot per element written. *)
Lemma eval_list_length ev es h vs h' :
  eval_list ev es h = (Ok vs, h') → length vs = length es.
Proof.
  revert h vs h'. induction es as [|e es IH]; intros h vs h' Hev; simpl in Hev.
  - by inversion Hev.
  - destruct (ev e h) as [[v|x] h1]; [|done].
    destruct (eval_list ev es h1) as [[vs'|x] h2] eqn:E2; inversion Hev; subst.
    simpl. f_equal. by eapply IH.
Qed.

(** ** Snapshots *)

Lemma snapshot_list_ext (f f' : val → option doc) vs ds :
  (∀ v d, f v = Some d → f' v = Some d) →
  snapshot_list f vs = Some ds → snapshot_list f' vs = Some ds.
Proof.
  intros Hf. revert ds. induction vs as [|v vs IH]; intros ds; simpl; [done|].
  destruct (f v) as [d|] eqn:Ev; [|done].
  destruct (snapshot_list f vs) as [ds'|]; [|done].
  intros [= <-]. by rewrite (Hf _ _ Ev), (IH ds').
Qed.

Lemma snapshot_items_ext (f f' : val → option doc) kvs kds :
  (∀ v d, f v = Some d → f' v = Some d) →
  snapshot_items f kvs = Some kds → snapshot_items f' kvs = Some kds.
Proof.
  intros Hf. revert kds. induction kvs as [|[k v] kvs IH]; intros kds; simpl; [done|].
  destruct (f v) as [d|] eqn:Ev; [|done].
  destruct (snapshot_items f kvs) as [ds'|]; [|done].
  intros [= <-]. by rewrite (Hf _ _ Ev), (IH ds').
Qed.

Lemma snapshot_ref n h l :
  snapshot (S n) h (VRef l) =
  match h !! l with
  | None => None
  | Some (OList vs) => DList <$> snapshot_list (snapshot n h) vs
  | Some (ODict kvs) => DDict <$> snapshot_items (snapshot n h) kvs
  | Some (OObj c kvs) => DObj c <$> snapshot_items (snapshot n h) kvs
  end.
Proof. reflexivity. Qed.

(** A snapshot stays what it is when the heap grows and when more steps are
    allowed. *)
Lemma snapshot_ext n m h h' v d :
  n ≤ m → h `prefix_of` h' → snapshot n h v = Some d → snapshot m h' v = Some d.
Proof.
  intros Hnm Hh. revert m Hnm v d.
  induction n as [|n IH]; intros m Hnm v d; destruct v as [| | | | |l];
    try (destruct m; simpl; congruence).
  destruct m as [|m]; [lia|]. rewrite !snapshot_ref.
  destruct (h !! l) as [o|] eqn:El; [|done].
  rewrite (prefix_lookup_Some _ _ _ _ El Hh).
  assert (∀ v d, snapshot n h v = Some d → snapshot m h' v = Some d) as Hsub
    by (intros; apply IH; [lia|done]).
  destruct o as [kvs|vs|c kvs]; intros Hs.
  - destruct (snapshot_items _ kvs) as [kds|] eqn:E; [|done].
    by rewrite (snapshot_items_ext _ _ _ _ Hsub E).
  - destruct (snapshot_list _ vs) as [ds|] eqn:E; [|done].
    by rewrite (snapshot_list_ext _ _ _ _ Hsub E).
  - destruct (snapshot_items _ kvs) as [kds|] eqn:E; [|done].
    by rewrite (snapshot_items_ext _ _ _ _ Hsub E).
Qed.

(** Storing the items of a display commutes with reading them. *)
Lemma snapshot_items_set (f : val → option doc) k v d kvs kds :
  f v = Some d → snapshot_items f kvs = Some kds →
  snapshot_items f (dict_set k v kvs) = Some (dict_set k d kds).
Proof.
  intros Hv. revert kds. induction kvs as [|[k' v'] kvs IH]; intros kds; simpl.
  - intros [= <-]. simpl. by rewrite Hv.
  - destruct (f v') as [d'|] eqn:Ev'; [|done].
    destruct (snapshot_items f kvs) as [ds'|] eqn:E; [|done].
    intros [= <-]. simpl. destruct (decide (k = k')); simpl.
    + by rewrite Hv, E.
    + by rewrite Ev', (IH ds').
Qed.

Lemma snapshot_items_foldl (f : val → option doc) kvs kds acc dacc :
  snapshot_items f acc = Some dacc →
  snapshot_items f kvs = Some kds →
  snapshot_items f (foldl (λ d kv, dict_set kv.1 kv.2 d) acc kvs)
  = Some (foldl (λ d kv, dict_set kv.1 kv.2 d) dacc kds).
Proof.
  revert kds acc dacc. induction kvs as [|[k v] kvs IH]; intros kds acc dacc Hacc; simpl.
  - by intros [= <-].
  - destruct (f v) as [d|] eqn:Ev; [|done].
    destruct (snapshot_items f kvs) as [ds'|] eqn:E; [|done].
    intros [= <-]. simpl. apply IH; [|done]. by apply snapshot_items_set.
Qed.

Lemma snapshot_dict_of_items (f : val → option doc) kvs kds :
  snapshot_items f kvs = Some kds →
  snapshot_items f (dict_of_items kvs) = Some (dict_of_items kds).
Proof. by apply snapshot_items_foldl. Qed.

Lemma eval_list_literal g es ds :
  Forall (λ e, ∀ d, literal e = Some d → evaluates_to g e d) es →
  literal_list literal es = Some ds →
  ∀ h, ∃ vs h',
    eval_list (eval g) es h = (Ok vs, h') ∧
    length h + foldr (λ e n, depth e `max` n) 0 es ≤ length h' ∧
    snapshot_list (snapshot (foldr (λ e n, depth e `max` n) 0 es) h') vs = Some ds.
Proof.
  intros Hes. revert ds. induction Hes as [|e es He _ IH]; intros ds; simpl.
  - intros [= <-] h. exists [], h. split_and!; [done|lia|done].
  - destruct (literal e) as [d|] eqn:Ed; [|done].
    destruct (literal_list literal es) as [ds'|] eqn:Eds; [|done].
    intros [= <-] h.
    destruct (He d eq_refl h) as (v & h1 & Ev & Hlen1 & Hs1).
    destruct (IH ds' eq_refl h1) as (vs & h2 & Evs & Hlen2 & Hs2).
    exists (v :: vs), h2. rewrite Ev, Evs.
    assert (h1 `prefix_of` h2) as Hp
      by (eapply eval_list_prefix; [|done]; apply Forall_forall; intros;
          by eapply eval_prefix).
    split_and!; [done|lia|]. simpl.
    rewrite (snapshot_ext (depth e) (depth e `max` foldr (λ e n, depth e `max` n) 0 es)
               h1 h2 v d ltac:(lia) Hp Hs1).
    erewrite snapshot_list_ext; [done| |done].
    intros v' d' Hv'. refine (snapshot_ext _ _ _ _ _ _ _ _ Hv'); [lia|done].
Qed.

Lemma eval_items_literal g kes kds :
  Forall (λ ke, ∀ d, literal ke.2 = Some d → evaluates_to g ke.2 d) kes →
  literal_items literal kes = Some kds →
  ∀ h, ∃ kvs h',
    eval_items (eval g) kes h = (Ok kvs, h') ∧
    length h + foldr (λ ke n, depth ke.2 `max` n) 0 kes ≤ length h' ∧
    snapshot_items (snapshot (foldr (λ ke n, depth ke.2 `max` n) 0 kes) h') kvs
    = Some kds.
Proof.
  intros Hes. revert kds. induction Hes as [|[k e] kes He _ IH]; intros kds; simpl.
  - intros [= <-] h. exists [], h. split_and!; [done|lia|done].
  - simpl in He. destruct (literal e) as [d|] eqn:Ed; [|done].
    destruct (literal_items literal kes) as [ds'|] eqn:Eds; [|done].
    intros [= <-] h.
    destruct (He d eq_refl h) as (v & h1 & Ev & Hlen1 & Hs1).
    destruct (IH ds' eq_refl h1) as (kvs & h2 & Evs & Hlen2 & Hs2).
    exists ((k, v) :: kvs), h2. rewrite Ev, Evs.
    assert (h1 `prefix_of` h2) as Hp
      by (eapply eval_items_prefix; [|done]; apply Forall_forall; intros;
          by eapply eval_prefix).
    split_and!; [done|lia|]. simpl.
    rewrite (snapshot_ext (depth e) (depth e `max` foldr (λ ke n, depth ke.2 `max` n) 0 kes)
               h1 h2 v d ltac:(lia) Hp Hs1).
    erewrite snapshot_items_ext; [done| |done].
    intros v' d' Hv'. refine (snapshot_ext _ _ _ _ _ _ _ _ Hv'); [lia|done].
Qed.

Lemma eval_literal g e d : literal e = Some d → evaluates_to g e d.
Proof.
  revert d.
  induction e as [| | | | |x|es IH|kes IH] using expr_ind'; intros d Hd h;
    simpl in Hd; try (injection Hd as <-; eexists _, h; split_and!; [done|simpl; lia|done]).
  - done.
  - destruct (literal_list literal es) as [ds|] eqn:Eds; [|done].
    injection Hd as <-.
    destruct (eval_list_literal g es ds IH Eds h) as (vs & h1 & Ev & Hlen & Hs).
    exists (VRef (length h1)), (h1 ++ [OList vs]). simpl. rewrite Ev.
    split_and!; [done|rewrite length_app; simpl; lia|].
    rewrite list_lookup_middle by done. simpl.
    erewrite snapshot_list_ext; [done| |done].
    intros v' d' Hv'. refine (snapshot_ext _ _ _ _ _ _ _ _ Hv'); [done|by apply prefix_app_r].
  - destruct (literal_items literal kes) as [kds|] eqn:Eds; [|done].
    injection Hd as <-.
    destruct (eval_items_literal g kes kds IH Eds h) as (kvs & h1 & Ev & Hlen & Hs).
    exists (VRef (length h1)), (h1 ++ [ODict (dict_of_items kvs)]). simpl. rewrite Ev.
    split_and!; [done|rewrite length_app; simpl; lia|].
    rewrite list_lookup_middle by done. simpl.
    erewrite snapshot_dict_of_items; [done|].
    erewrite snapshot_items_ext; [done| |done].
    intros v' d' Hv'. refine (snapshot_ext _ _ _ _ _ _ _ _ Hv'); [done|by apply prefix_app_r].
Qed.

(** The same through [deep]: every object of the result is within reach. *)
Lemma eval_literal_deep g e d h :
  literal e = Some d →
  ∃ v h', eval g e h = (Ok v, h') ∧ h `prefix_of` h' ∧ deep h' v = Some d.
Proof.
  intros Hd. destruct (eval_literal g e d Hd h) as (v & h' & Ev & Hlen & Hs).
  exists v, h'. split_and!; [done|by eapply eval_prefix|].
  unfold deep. eapply snapshot_ext; [|done|done]. lia.
Qed.

(** ** Runs depend on the world through the network only *)

Lemma net_ret {A} (a : A) : network_only (mret a).
Proof. by intros w w' s _. Qed.

Lemma net_bind {A B} (m : M A) (f : A → M B) :
  network_only m → (∀ a, network_only (f a)) → network_only (m ≫= f).
Proof.
  intros Hm Hf w w' s H. unfold mbind, M_bind. rewrite (Hm w w' s H).
  destruct (m w' s) as [[a|x] s1]; [by apply Hf|done].
Qed.

Lemma net_raise {A} x : network_only (@raise A x).
Proof. by intros w w' s _. Qed.

Lemma net_modify f : network_only (modify f).
Proof. by intros w w' s _. Qed.

Lemma net_output f : network_only (output f).
Proof. by intros w w' s _. Qed.

Lemma net_construct e : network_only (construct e).
Proof. by intros w w' s _. Qed.

Lemma net_new o : network_only (new o).
Proof. by intros w w' s _. Qed.

Lemma net_load l : network_only (load l).
Proof. by intros w w' s _. Qed.

Lemma net_get_gcf : network_only get_gcf.
Proof. by intros w w' s _. Qed.

Lemma net_http u : network_only (http u).
Proof. intros w w' s H. unfold http. by rewrite (H u). Qed.

Lemma net_kwargs kas :
  Forall (λ ka, network_only ka.2) kas → network_only (kwargs kas).
Proof.
  induction 1 as [|[k a] kas Ha _ IH]; simpl; [apply net_ret|].
  apply net_bind; [done|]. intros v. apply net_bind; [done|]. intros kvs. apply net_ret.
Qed.

(** Actions built from the ones above by sequencing and case analysis. *)
Ltac net_step :=
  first
    [ apply net_ret | apply net_raise | apply net_modify | apply net_output
    | apply net_construct | apply net_new | apply net_load | apply net_get_gcf
    | apply net_http | assumption
    | apply net_kwargs; assumption
    | apply net_bind; [|intros ?]
    | match goal with
      | |- network_only (match ?x with _ => _ end) => destruct x
      end ].

Ltac net := repeat net_step.

Lemma net_assign x m : network_only m → network_only (x ::= m).
Proof. intros. unfold assign. net. Qed.

Lemma net_exec m : network_only m → network_only (exec m).
Proof. intros. unfold exec. net. Qed.

Lemma net_store l o : network_only (store l o).
Proof. unfold store. net. Qed.

Lemma net_instance cls kas :
  Forall (λ ka, network_only ka.2) kas → network_only (instance cls kas).
Proof. intros. unfold instance. net. Qed.

Lemma net_display a raw : network_only a → network_only (display a raw).
Proof. intros. unfold display. net. Qed.

Lemma net_show a : network_only a → network_only (show a).
Proof. intros. unfold show. net. Qed.

Lemma net_read_csv url : network_only url → network_only (read_csv url).
Proof. intros. unfold read_csv. net. Qed.

Lemma net_set_option path a : network_only a → network_only (set_option path a).
Proof. intros. unfold set_option. net. Qed.

Lemma net_go_Figure kas :
  Forall (λ ka, network_only ka.2) kas → network_only (go_Figure kas).
Proof. intros. unfold go_Figure. net. Qed.

Lemma net_update_layout self kas :
  network_only self → Forall (λ ka, network_only ka.2) kas →
  network_only (update_layout self kas).
Proof. intros. unfold update_layout. net; apply net_store. Qed.

Lemma net_chart_with self k a :
  network_only self → network_only a → network_only (chart_with self k a).
Proof. intros. unfold chart_with. net. Qed.

Lemma net_encode self kas :
  network_only self → Forall (λ ka, network_only ka.2) kas →
  network_only (encode self kas).
Proof. intros. unfold encode. apply net_chart_with; [done|]. net. Qed.

Lemma net_current_figure : network_only current_figure.
Proof. unfold current_figure. net. Qed.

Lemma net_plt_plot x y : network_only x → network_only y → network_only (plt_plot x y).
Proof. intros. unfold plt_plot. net; first [apply net_current_figure | apply net_store]. Qed.

Lemma net_plt_show : network_only plt_show.
Proof. unfold plt_show. net. Qed.

(** Every statement of every script is such an action. *)
Ltac net_script :=
  repeat lazymatch goal with
    | |- Forall _ [] => apply Forall_nil_2
    | |- Forall _ (_ :: _) => apply Forall_cons_2
    | |- network_only (_ ::= _) => apply net_assign
    | |- network_only (exec _) => apply net_exec
    | |- network_only (display _ _) => apply net_display
    | |- network_only (show _) => apply net_show
    | |- network_only (read_csv _) => apply net_read_csv
    | |- network_only (set_option _ _) => apply net_set_option
    | |- network_only (instance _ _) => apply net_instance
    | |- network_only (go_Figure _) => apply net_go_Figure
    | |- network_only (update_layout _ _) => apply net_update_layout
    | |- network_only (encode _ _) => apply net_encode
    | |- network_only (chart_with _ _ _) => apply net_chart_with
    | |- network_only (plt_plot _ _) => apply net_plt_plot
    | |- network_only plt_show => apply net_plt_show
    | |- network_only (construct _) => apply net_construct
    | |- network_only (new _) => apply net_new
    | |- network_only (mret _) => apply net_ret
    | |- _ => progress (cbv beta; cbn [fst snd])
    end.


Lemma run_from_network w w' ss s :
  same_network w w' → Forall network_only ss → run_from w ss s = run_from w' ss s.
Proof.
  intros H Hss. revert s. induction Hss as [|st ss Hst _ IH]; intros s; simpl; [done|].
  rewrite (Hst w w' s H). destruct (st w' s) as [[[]|x] s1]; [apply IH|done].
Qed.

Lemma same_network_answering w u : same_network w (answering w u (http_get w u)).
Proof. intros u'. simpl. by destruct (decide (u' = u)) as [->|]. Qed.

(** To study a run, the answer to one GET can be fixed beforehand. *)
Lemma run_answering w u ss :
  Forall network_only ss → run w ss = run (answering w u (http_get w u)) ss.
Proof. intros. apply run_from_network; [apply same_network_answering|done]. Qed.

(** ** The runs of the scripts *)

Lemma ex_pandas_2_network_only : Forall network_only ex_pandas_2.
Proof. unfold ex_pandas_2, var. net_script. Qed.

Lemma ex_plotly_2_network_only : Forall network_only ex_plotly_2.
Proof. unfold ex_plotly_2, var. net_script. Qed.

(** A run of [ex-pandas-2.py] is one of two, by the answer to its GET. *)
Ltac pandas_cases w :=
  rewrite ?(run_answering w iris_url ex_pandas_2 ex_pandas_2_network_only);
  destruct (http_get w iris_url) as [?x|?body] eqn:?.

Ltac plotly_cases w :=
  rewrite ?(run_answering w mt_bruno_url ex_plotly_2 ex_plotly_2_network_only);
  destruct (http_get w mt_bruno_url) as [?x|?body] eqn:?.

Lemma documents_of_altair w : documents_of (run w ex_altair).2 = [].
Proof. by vm_compute. Qed.

Lemma documents_of_markdown w : documents_of (run w ex_markdown_test).2 = [].
Proof. by vm_compute. Qed.

Lemma documents_of_matplotlib w : documents_of (run w ex_matplotlib_1).2 = [].
Proof. by vm_compute. Qed.

Lemma documents_of_pandas w : documents_of (run w ex_pandas_2).2 = [].
Proof. pandas_cases w; by vm_compute. Qed.

Lemma documents_of_plotly w : documents_of (run w ex_plotly_2).2 = [].
Proof. plotly_cases w; by vm_compute. Qed.

Lemma documents_of_vega w :
  documents_of (run w ex_vega).2
  = [the vegalite_spec; the line_spec; the vega_spec; the scatter_spec].
Proof. by vm_compute. Qed.

(** The chart documents of the repository are the four of [ex-vega.py],
    whatever the world. *)
Lemma chart_documents_eq w :
  chart_documents w = [the vegalite_spec; the line_spec; the vega_spec; the scatter_spec].
Proof.
  change (chart_documents w) with
    (documents_of (run w ex_altair).2 ++ documents_of (run w ex_markdown_test).2 ++
     documents_of (run w ex_matplotlib_1).2 ++ documents_of (run w ex_pandas_2).2 ++
     documents_of (run w ex_plotly_2).2 ++ documents_of (run w ex_vega).2 ++ []).
  rewrite documents_of_altair, documents_of_markdown, documents_of_matplotlib,
    documents_of_pandas, documents_of_plotly, documents_of_vega.
  reflexivity.
Qed.

(** ** Chart documents *)

(** A property of every element of a list that is written out. *)
Ltac each :=
  repeat lazymatch goal with
    | |- Forall _ (_ :: _) => apply Forall_cons_2
    | |- Forall _ [] => apply Forall_nil_2
    end.


(** C2. Every declarative chart document the repository builds has a
    [$schema] that is exactly one of the two recognised grammar URLs: the
    Vega-Lite v5 one or the Vega v5 one. There are four such documents. *)
Theorem C2_schema_is_one_of_two (w : world) :
  length (chart_documents w) = 4 ∧
  Forall (λ d,
    (field "$schema" d = Some (DStr "https://vega.github.io/schema/vega-lite/v5.json") ∧
     field "$schema" d ≠ Some (DStr "https://vega.github.io/schema/vega/v5.json")) ∨
    (field "$schema" d = Some (DStr "https://vega.github.io/schema/vega/v5.json") ∧
     field "$schema" d ≠ Some (DStr "https://vega.github.io/schema/vega-lite/v5.json")))
    (chart_documents w).
Proof.
  rewrite chart_documents_eq. split; [reflexivity|]. each.
  - left. by split.
  - left. by split.
  - right. by split.
  - left. by split.
Qed.

(** C9. Each of the four display calls of [ex-vega.py] passes [raw=True]
    and a payload with exactly one key, and the key agrees with the grammar
    of the document under it: the Vega-Lite MIME type exactly when the
    document's [$schema] is the Vega-Lite URL, the Vega MIME type exactly
    when it is the Vega URL. *)
Theorem C9_mime_agrees_with_schema (w : world) :
  length (displays (run w ex_vega).2) = 4 ∧
  Forall (λ p,
    p.1 = true ∧
    ∃ k d, p.2 = Some (DDict [(k, d)]) ∧
      (k = "application/vnd.vegalite.v5+json" ↔
       field "$schema" d = Some (DStr "https://vega.github.io/schema/vega-lite/v5.json")) ∧
      (k = "application/vnd.vega.v5+json" ↔
       field "$schema" d = Some (DStr "https://vega.github.io/schema/vega/v5.json")))
    (displays (run w ex_vega).2).
Proof.
  assert (displays (run w ex_vega).2 =
          [(true, Some (DDict [(vegalite_v5_mime, the vegalite_spec)]));
           (true, Some (DDict [(vegalite_v5_mime, the line_spec)]));
           (true, Some (DDict [(vega_v5_mime, the vega_spec)]));
           (true, Some (DDict [(vegalite_v5_mime, the scatter_spec)]))]) as ->
    by (by vm_compute).
  split; [reflexivity|].
  each; (split; [reflexivity|]); eexists _, _; (split; [reflexivity|]); by split.
Qed.

(** C10. In every data set written in [ex-vega.py] all records have the same
    set of field names, and every field value is a scalar, never a nested
    mapping or list. *)
Theorem C10_uniform_scalar_records (w : world) :
  Forall (λ d, datasets d ≠ [] ∧ Forall (λ rs, rs ≠ [] ∧ uniform rs = true) (datasets d))
    (chart_documents w).
Proof.
  rewrite chart_documents_eq.
  repeat apply Forall_cons_2; try apply Forall_nil_2;
    (split; [done|]); apply Forall_cons_2; try apply Forall_nil_2;
    (split; [done|by vm_compute]).
Qed.

(** C3. Every data set a script writes as a literal is built with as many
    records as the source lists; the bar chart's has five, each with the
    fields [category] and [value] and no other. *)
Theorem C3_records_as_written (w : world) :
  ((λ d, length <$> datasets d) <$> chart_documents w)
  = ((λ e, length <$> written_datasets e) <$> [vegalite_spec; line_spec; vega_spec; scatter_spec]) ∧
  ((λ e, length <$> written_datasets e) <$> [vegalite_spec; line_spec; vega_spec; scatter_spec])
  = [[5]; [6]; [5]; [5]] ∧
  ∃ bar, head (chart_documents w) = Some bar ∧
    length (vl_records bar) = 5 ∧
    Forall (λ r, keys r = ["category"; "value"]) (vl_records bar).
Proof.
  rewrite chart_documents_eq. split_and!; [reflexivity..|].
  exists (the vegalite_spec). split_and!; [reflexivity..|].
  change (vl_records (the vegalite_spec))
    with [DDict [("category", DStr "A"); ("value", DInt 28)];
          DDict [("category", DStr "B"); ("value", DInt 55)];
          DDict [("category", DStr "C"); ("value", DInt 43)];
          DDict [("category", DStr "D"); ("value", DInt 91)];
          DDict [("category", DStr "E"); ("value", DInt 81)]].
  each; reflexivity.
Qed.

(** C1, as stated, fails on the pie chart of [ex-vega.py]: its mark reads the
    field [startAngle] of the data set [table], and no record written for
    [table] has that key (the records have [id] and [field]). *)
Lemma C1_counterexample :
  the vega_spec ∈ chart_documents offline ∧
  encodings_bound (the vega_spec) = false ∧
  ("table", "startAngle") ∈ vega_mark_fields (the vega_spec) ∧
  length (vega_records (the vega_spec) "table") = 5 ∧
  Forall (λ r, keys r = ["id"; "field"]) (vega_records (the vega_spec) "table") ∧
  in_every_record (vega_records (the vega_spec) "table") "startAngle" = false.
Proof.
  rewrite chart_documents_eq. split_and!.
  - do 2 apply list_elem_of_further. apply list_elem_of_here.
  - reflexivity.
  - apply list_elem_of_further, list_elem_of_here.
  - reflexivity.
  - repeat apply Forall_cons_2; try apply Forall_nil_2; reflexivity.
  - reflexivity.
Qed.

(** C1, amended. In each Vega-Lite document every encoding channel reads a
    field that is a key of every record of [data.values]; the tooltip
    channels of the scatter plot read [label], [x] and [y]. In the Vega pie
    chart every field a mark reads is a key of every record written for the
    mark's data set or a field the transforms of that data set add: [id] is
    a key of every record of [table], while [startAngle] and [endAngle] are
    keys of none and are what the [pie] transform declared on [table]
    adds. *)
Theorem C1_fields_bound_or_derived (w : world) :
  Forall (λ d,
    if is_vega d
    then Forall (λ nf, in_every_record (vega_records d nf.1) nf.2 = true ∨
                       nf.2 ∈ derived_fields d nf.1) (vega_mark_fields d)
    else vl_fields d ≠ [] ∧ encodings_bound d = true)
    (chart_documents w) ∧
  (∃ scatter, chart_documents w !! 3 = Some scatter ∧
     tooltip_fields scatter = ["label"; "x"; "y"] ∧
     length (vl_records scatter) = 5 ∧
     Forall (λ f, in_every_record (vl_records scatter) f = true) (tooltip_fields scatter)) ∧
  (∃ pie, chart_documents w !! 2 = Some pie ∧
     vega_mark_fields pie = [("table", "id"); ("table", "startAngle"); ("table", "endAngle")] ∧
     in_every_record (vega_records pie "table") "id" = true ∧
     Forall (λ r, keys r = ["id"; "field"]) (vega_records pie "table") ∧
     derived_fields pie "table" = ["startAngle"; "endAngle"]).
Proof.
  rewrite chart_documents_eq. split_and!.
  - each.
    + by split.
    + by split.
    + change (is_vega (the vega_spec)) with true. cbv iota.
      change (vega_mark_fields (the vega_spec))
        with [("table", "id"); ("table", "startAngle"); ("table", "endAngle")].
      change (derived_fields (the vega_spec) "table") with ["startAngle"; "endAngle"].
      each.
      * left. reflexivity.
      * right. apply list_elem_of_here.
      * right. apply list_elem_of_further, list_elem_of_here.
    + by split.
  - exists (the scatter_spec). split_and!; [reflexivity..|].
    change (tooltip_fields (the scatter_spec)) with ["label"; "x"; "y"].
    each; reflexivity.
  - exists (the vega_spec). split_and!; [reflexivity..| |reflexivity].
    change (vega_records (the vega_spec) "table")
      with (elements (DList (vega_records (the vega_spec) "table"))).
    apply Forall_forall. intros r Hr. vm_compute in Hr.
    repeat (apply elem_of_cons in Hr as [->|Hr]; [reflexivity|]).
    by apply elem_of_nil in Hr.
Qed.

(** ** Remote data *)

Lemma fetched_altair w : fetched (run w ex_altair).2 = [].
Proof. by vm_compute. Qed.

Lemma fetched_markdown w : fetched (run w ex_markdown_test).2 = [].
Proof. by vm_compute. Qed.

Lemma fetched_matplotlib w : fetched (run w ex_matplotlib_1).2 = [].
Proof. by vm_compute. Qed.

Lemma fetched_vega w : fetched (run w ex_vega).2 = [].
Proof. by vm_compute. Qed.

Lemma fetched_pandas w : fetched (run w ex_pandas_2).2 = [iris_url].
Proof. pandas_cases w; by vm_compute. Qed.

Lemma fetched_plotly w : fetched (run w ex_plotly_2).2 = [mt_bruno_url].
Proof. plotly_cases w; by vm_compute. Qed.

(** A failed GET ends [ex-pandas-2.py] with the exception of the HTTP
    library; the log stops at the request. *)
Lemma pandas_fetch_fails w x :
  http_get w iris_url = inl x →
  (run w ex_pandas_2).1 = Raise x ∧ log (run w ex_pandas_2).2 = [EvFetch iris_url].
Proof.
  intros H. rewrite (run_answering w iris_url) by apply ex_pandas_2_network_only.
  rewrite H. by vm_compute.
Qed.

Lemma plotly_fetch_fails w x :
  http_get w mt_bruno_url = inl x →
  (run w ex_plotly_2).1 = Raise x ∧ log (run w ex_plotly_2).2 = [EvFetch mt_bruno_url].
Proof.
  intros H. rewrite (run_answering w mt_bruno_url) by apply ex_plotly_2_network_only.
  rewrite H. by vm_compute.
Qed.

(** The scripts, one by one. *)
Lemma elem_of_scripts name ss :
  (name, ss) ∈ scripts →
  ss = ex_altair ∨ ss = ex_markdown_test ∨ ss = ex_matplotlib_1 ∨
  ss = ex_pandas_2 ∨ ss = ex_plotly_2 ∨ ss = ex_vega.
Proof.
  unfold scripts. rewrite !elem_of_cons, elem_of_nil.
  intros [H|[H|[H|[H|[H|[H|[]]]]]]]; injection H as _ ->; tauto.
Qed.

(** C4. In every script that fetches remote data, a fetch that fails ends the
    run with the very exception the HTTP library raised: the request is in
    the log once (it is not tried again), nothing comes after it (no later
    statement runs, nothing is displayed), and the run is over. *)
Theorem C4_failed_fetch_ends_the_run (w : world) (name : string) (ss : script)
    (u : string) (x : exn) :
  (name, ss) ∈ scripts →
  u ∈ fetched (run w ss).2 →
  http_get w u = inl x →
  (run w ss).1 = Raise x ∧ log (run w ss).2 = [EvFetch u].
Proof.
  intros Hss Hu Hx.
  destruct (elem_of_scripts _ _ Hss) as [->|[->|[->|[->|[->| ->]]]]].
  - rewrite fetched_altair in Hu. by apply elem_of_nil in Hu.
  - rewrite fetched_markdown in Hu. by apply elem_of_nil in Hu.
  - rewrite fetched_matplotlib in Hu. by apply elem_of_nil in Hu.
  - rewrite fetched_pandas in Hu. apply list_elem_of_singleton in Hu as ->.
    by apply pandas_fetch_fails.
  - rewrite fetched_plotly in Hu. apply list_elem_of_singleton in Hu as ->.
    by apply plotly_fetch_fails.
  - rewrite fetched_vega in Hu. by apply elem_of_nil in Hu.
Qed.

Lemma C4_witness :
  ("ex-pandas-2.py", ex_pandas_2) ∈ scripts ∧
  iris_url ∈ fetched (run offline ex_pandas_2).2 ∧
  http_get offline iris_url = inl (URLError "unreachable") ∧
  (run offline ex_pandas_2).1 = Raise (URLError "unreachable") ∧
  log (run offline ex_pandas_2).2 = [EvFetch iris_url].
Proof.
  assert (("ex-pandas-2.py", ex_pandas_2) ∈ scripts) as H1
    by (do 3 apply list_elem_of_further; apply list_elem_of_here).
  assert (iris_url ∈ fetched (run offline ex_pandas_2).2) as H2
    by (vm_compute; apply list_elem_of_here).
  split_and!; [exact H1|exact H2|reflexivity|..];
    apply (C4_failed_fetch_ends_the_run offline "ex-pandas-2.py" ex_pandas_2
             iris_url (URLError "unreachable") H1 H2 eq_refl).
Defined.

(** C8. The URL a script fetches is written in the script: any two runs of
    a script, in any two worlds (whatever their command lines, environments,
    files and networks), request the same URLs, and these are the literal
    in [ex-pandas-2.py] and the literal in [ex-plotly-2.py]. *)
Theorem C8_fetched_url_is_fixed (w w' : world) :
  Forall (λ p, fetched (run w p.2).2 = fetched (run w' p.2).2) scripts ∧
  fetched (run w ex_pandas_2).2
  = ["https://archive.ics.uci.edu/ml/machine-learning-databases/iris/iris.data"] ∧
  fetched (run w ex_plotly_2).2
  = ["https://raw.githubusercontent.com/plotly/datasets/master/api_docs/mt_bruno_elevation.csv"].
Proof.
  split_and!; [|apply fetched_pandas|apply fetched_plotly].
  unfold scripts. each; cbn [snd].
  - by rewrite !fetched_altair.
  - by rewrite !fetched_markdown.
  - by rewrite !fetched_matplotlib.
  - by rewrite !fetched_pandas.
  - by rewrite !fetched_plotly.
  - by rewrite !fetched_vega.
Qed.

(** ** Frames *)

Lemma doc_ind' (P : doc → Prop) :
  P DNone → (∀ b, P (DBool b)) → (∀ n, P (DInt n)) → (∀ r, P (DFloat r)) →
  (∀ s, P (DStr s)) →
  (∀ xs, Forall P xs → P (DList xs)) →
  (∀ kds, Forall (λ kd, P kd.2) kds → P (DDict kds)) →
  (∀ c kds, Forall (λ kd, P kd.2) kds → P (DObj c kds)) →
  ∀ d, P d.
Proof.
  intros HN HB HI HF HS HL HD HO.
  fix IH 1. intros [| b | n | r | s | xs | kds | c kds].
  - apply HN.
  - apply HB.
  - apply HI.
  - apply HF.
  - apply HS.
  - apply HL. induction xs as [|x xs IHxs]; constructor; [apply IH | apply IHxs].
  - apply HD. induction kds as [|[k x] kds IHkds]; constructor; [apply IH | apply IHkds].
  - apply HO. induction kds as [|[k x] kds IHkds]; constructor; [apply IH | apply IHkds].
Qed.

Lemma seen_denotes w ss k x : seen w ss k x = denotes (after w ss k) x.
Proof. reflexivity. Qed.

Lemma keeps_on_spec P s s' x d :
  keeps_on P s s' → P x = true → denotes s x = Some d → denotes s' x = Some d.
Proof.
  unfold keeps_on. rewrite Forall_forall. intros H HP Hx.
  unfold denotes in Hx. apply bind_Some in Hx as (v & Hv & Hd).
  apply elem_of_map_to_list in Hv. by apply (H _ Hv).
Qed.

Lemma after_ge w ss k : length ss ≤ k → after w ss k = after w ss (length ss).
Proof. intros. unfold after. by rewrite !take_ge by lia. Qed.

(** It is enough to look at each statement in turn. *)
Lemma unchanged_on_steps P w ss :
  (∀ k, k < length ss → keeps_on P (after w ss k) (after w ss (S k))) →
  unchanged_on P w ss.
Proof.
  intros H x i j d HP Hij. induction Hij as [|j Hij IH]; [done|].
  intros Hi. specialize (IH Hi). rewrite seen_denotes in *.
  destruct (decide (j < length ss)) as [Hj|Hj].
  - exact (keeps_on_spec P (after w ss j) _ x d (H j Hj) HP IH).
  - by rewrite (after_ge _ _ (S j)), <-(after_ge _ _ j) by lia.
Qed.

Lemma after_network w w' ss k :
  same_network w w' → Forall network_only ss → after w ss k = after w' ss k.
Proof.
  intros H Hss. unfold after, run. f_equal.
  apply run_from_network; [done|by apply Forall_take].
Qed.

Lemma unchanged_on_network P w w' ss :
  same_network w w' → Forall network_only ss →
  unchanged_on P w' ss → unchanged_on P w ss.
Proof.
  intros H Hss Hu x i j d. unfold seen.
  rewrite !(after_network w w' ss) by done. apply Hu.
Qed.

(** One step keeps what the names denote: the names bound before the step
    are listed and looked up after it. *)
Ltac keeps_step :=
  unfold keeps_on;
  lazymatch goal with
  | |- Forall _ ?l =>
      let l' := eval vm_compute in l in
      replace l with l' by (vm_compute; reflexivity)
  end;
  each; cbn [fst snd]; intros HP d Hd;
  first [ by vm_compute in HP
        | vm_compute in Hd; injection Hd as <-; vm_compute; reflexivity ].

(** The first statements of a script, one by one. *)
Ltac first_steps k H :=
  lazymatch type of H with
  | _ < length ?ss =>
      let n := eval vm_compute in (length ss) in change (k < n) in H
  end;
  repeat (destruct k as [|k]; [keeps_step|apply (proj2 (Nat.succ_lt_mono _ _)) in H]);
  by apply Nat.nlt_0_r in H.

Lemma unchanged_altair w : unchanged w ex_altair.
Proof. apply unchanged_on_steps. intros k Hk. first_steps k Hk. Qed.

Lemma unchanged_markdown w : unchanged w ex_markdown_test.
Proof. apply unchanged_on_steps. intros k Hk. first_steps k Hk. Qed.

Lemma unchanged_matplotlib w : unchanged w ex_matplotlib_1.
Proof. apply unchanged_on_steps. intros k Hk. first_steps k Hk. Qed.

Lemma unchanged_vega w : unchanged w ex_vega.
Proof. apply unchanged_on_steps. intros k Hk. first_steps k Hk. Qed.

Lemma unchanged_pandas w : unchanged w ex_pandas_2.
Proof.
  eapply (unchanged_on_network _ w);
    [apply (same_network_answering w iris_url)|apply ex_pandas_2_network_only|].
  apply unchanged_on_steps. intros k Hk.
  destruct (http_get w iris_url); first_steps k Hk.
Qed.

(** [ex-plotly-2.py] changes nothing but its figure. *)
Lemma unchanged_plotly_but_fig w :
  unchanged_on (λ x, bool_decide (x ≠ "fig")) w ex_plotly_2.
Proof.
  eapply (unchanged_on_network _ w);
    [apply (same_network_answering w mt_bruno_url)|apply ex_plotly_2_network_only|].
  apply unchanged_on_steps. intros k Hk.
  destruct (http_get w mt_bruno_url); first_steps k Hk.
Qed.

Lemma seen_answering w u ss k x :
  Forall network_only ss →
  seen w ss k x = seen (answering w u (http_get w u)) ss k x.
Proof.
  intros Hss. unfold seen.
  by rewrite (after_network w _ ss k (same_network_answering w u) Hss).
Qed.

(** C6, as stated, fails on [ex-plotly-2.py]: the figure bound to [fig] has an
    empty layout when [go.Figure] returns, the two [update_layout] statements
    change it in place, and the figure handed to [display] has a layout of
    five properties. *)
Lemma C6_counterexample :
  ∃ data layout,
    seen (online "1,2") ex_plotly_2 2 "fig"
    = Some (DObj "Figure" [("data", data); ("layout", DDict [])]) ∧
    shown (run (online "1,2") ex_plotly_2).2
    = [DObj "Figure" [("data", data); ("layout", DDict layout)]] ∧
    dict_keys layout = ["title"; "width"; "height"; "margin"; "scene_camera"] ∧
    ¬ unchanged (online "1,2") ex_plotly_2.
Proof.
  eexists _, _. split_and!; [by vm_compute..|].
  intros H.
  assert (seen (online "1,2") ex_plotly_2 2 "fig" = seen (online "1,2") ex_plotly_2 3 "fig")
    as Heq; [|by vm_compute in Heq].
  destruct (seen (online "1,2") ex_plotly_2 2 "fig") as [d|] eqn:Hd; [|by vm_compute in Hd].
  symmetry. apply (H "fig" 2 3 d eq_refl); [lia|done].
Qed.

(** C6, amended. In every script but [ex-plotly-2.py], what a name is bound
    to is never changed by a later statement, and what is displayed is the
    object as it was built. In [ex-plotly-2.py] this holds for every name
    but [fig]: the figure is built with an empty layout and is updated in
    place by the two [update_layout] statements, so that the figure displayed
    has the same data and a layout with [title], [width], [height], [margin]
    and [scene_camera]. *)
Theorem C6_unchanged_but_the_plotly_figure (w : world) :
  Forall (unchanged w) [ex_altair; ex_markdown_test; ex_matplotlib_1; ex_pandas_2; ex_vega] ∧
  unchanged_on (λ x, bool_decide (x ≠ "fig")) w ex_plotly_2 ∧
  (∃ d1 d2 d3 d4,
     seen w ex_vega 1 "vegalite_spec" = Some d1 ∧ seen w ex_vega 3 "line_spec" = Some d2 ∧
     seen w ex_vega 5 "vega_spec" = Some d3 ∧ seen w ex_vega 7 "scatter_spec" = Some d4 ∧
     shown (run w ex_vega).2
     = [DDict [("application/vnd.vegalite.v5+json", d1)];
        DDict [("application/vnd.vegalite.v5+json", d2)];
        DDict [("application/vnd.vega.v5+json", d3)];
        DDict [("application/vnd.vegalite.v5+json", d4)]]) ∧
  (∃ d, seen w ex_altair 2 "spec" = Some d ∧ shown (run w ex_altair).2 = [d]) ∧
  (∀ body, http_get w iris_url = inr body →
     ∃ d, seen w ex_pandas_2 4 "df1" = Some d ∧ shown (run w ex_pandas_2).2 = [d]) ∧
  (∀ body, http_get w mt_bruno_url = inr body →
     ∃ data layout,
       seen w ex_plotly_2 2 "fig"
       = Some (DObj "Figure" [("data", data); ("layout", DDict [])]) ∧
       shown (run w ex_plotly_2).2
       = [DObj "Figure" [("data", data); ("layout", DDict layout)]] ∧
       dict_keys layout = ["title"; "width"; "height"; "margin"; "scene_camera"]).
Proof.
  split_and!.
  - each; [apply unchanged_altair|apply unchanged_markdown|apply unchanged_matplotlib
          |apply unchanged_pandas|apply unchanged_vega].
  - apply unchanged_plotly_but_fig.
  - eexists _, _, _, _. split_and!; by vm_compute.
  - eexists. split; by vm_compute.
  - intros body H.
    rewrite (seen_answering w iris_url) by apply ex_pandas_2_network_only.
    rewrite (run_answering w iris_url) by apply ex_pandas_2_network_only.
    rewrite H. eexists. split; by vm_compute.
  - intros body H.
    rewrite (seen_answering w mt_bruno_url) by apply ex_plotly_2_network_only.
    rewrite (run_answering w mt_bruno_url) by apply ex_plotly_2_network_only.
    rewrite H. eexists _, _. split_and!; by vm_compute.
Qed.

(** ** Construction *)

Lemma subseteq_by_list (m m' : gmap string val) :
  Forall (λ xv, m' !! xv.1 = Some xv.2) (map_to_list m) → m ⊆ m'.
Proof.
  rewrite Forall_forall. intros H. apply map_subseteq_spec. intros x v Hx.
  by apply (H (x, v)), elem_of_map_to_list.
Qed.

Lemma prefix_by_drop (h h' : heap) : h' = h ++ drop (length h) h' → h `prefix_of` h'.
Proof. intros ->. by apply prefix_app_r. Qed.

(** A step between two states that are known. *)
Ltac allocates_step :=
  unfold only_allocates; split_and!;
  [ by vm_compute | by vm_compute | by vm_compute
  | apply prefix_by_drop; by vm_compute
  | apply subseteq_by_list;
    lazymatch goal with
    | |- Forall _ ?l =>
        let l' := eval vm_compute in l in
        replace l with l' by (vm_compute; reflexivity)
    end;
    each; by vm_compute ].

(** Building the object a closed display denotes only allocates, and cannot
    fail: nothing looks at what the display says. *)
Lemma construct_literal w e d s :
  literal e = Some d →
  ∃ v s', construct e w s = (Ok v, s') ∧ only_allocates s s' ∧
          globals s' = globals s ∧ deep (st_heap s') v = Some d.
Proof.
  intros Hd.
  destruct (eval_literal_deep (globals s) e d (st_heap s) Hd) as (v & h' & Hev & Hp & Hdeep).
  exists v, (set_heap h' s). unfold construct. rewrite Hev.
  split_and!; try done.
Qed.

Lemma after_answering w u ss k :
  Forall network_only ss → after w ss k = after (answering w u (http_get w u)) ss k.
Proof. intros. by apply after_network; [apply same_network_answering|]. Qed.

(** C7, as stated, fails on [ex-matplotlib_1.py]: its chart is built by
    [plt.plot], which works on pyplot's current figure, a state of the
    library and not an object the statement yields; the statement leaves a
    current figure where there was none. *)
Lemma C7_counterexample :
  gcf (after offline ex_matplotlib_1 2) = None ∧
  gcf (after offline ex_matplotlib_1 3) = Some (VRef 3) ∧
  ¬ only_allocates (after offline ex_matplotlib_1 2) (after offline ex_matplotlib_1 3).
Proof.
  split_and!; [by vm_compute..|].
  intros (_ & _ & H & _). by vm_compute in H.
Qed.

(** C7, amended. In the scripts that build a chart object ([ex-vega.py],
    [ex-altair.py], [ex-plotly-2.py]) the statement that builds it only
    allocates: it writes no output and changes no library setting, no
    existing object and no earlier binding. Nothing is validated: every
    closed dict or list display, a well-formed chart or not, is built as
    written. ([ex-matplotlib_1.py] builds its chart in pyplot's current
    figure instead.) *)
Theorem C7_construction_only_allocates (w : world) :
  (∀ e d s, literal e = Some d →
     ∃ v s', construct e w s = (Ok v, s') ∧ only_allocates s s' ∧
             globals s' = globals s ∧ deep (st_heap s') v = Some d) ∧
  Forall (λ k, only_allocates (after w ex_vega k) (after w ex_vega (S k))) [0; 2; 4; 6] ∧
  only_allocates (after w ex_altair 1) (after w ex_altair 2) ∧
  only_allocates (after w ex_plotly_2 1) (after w ex_plotly_2 2).
Proof.
  split_and!.
  - intros e d s. apply construct_literal.
  - each; allocates_step.
  - allocates_step.
  - rewrite !(after_answering w mt_bruno_url) by apply ex_plotly_2_network_only.
    destruct (http_get w mt_bruno_url); allocates_step.
Qed.

(** A display that is no chart at all (no [$schema], a number where the mark
    should be) is built like any other. *)
Lemma C7_witness :
  ∃ v s', construct (EDict [("mark", EInt 3); ("encoding", EList [])]) offline init = (Ok v, s') ∧
          only_allocates init s' ∧ globals s' = globals init ∧
          deep (st_heap s') v = Some (DDict [("mark", DInt 3); ("encoding", DList [])]).
Proof.
  exact (proj1 (C7_construction_only_allocates offline)
           (EDict [("mark", EInt 3); ("encoding", EList [])])
           (DDict [("mark", DInt 3); ("encoding", DList [])]) init eq_refl).
Defined.

(** ** JSON: reading what was written *)

Lemma append_cons x (a b : string) : String x a +:+ b = String x (a +:+ b).
Proof. reflexivity. Qed.

Lemma append_assoc (a b c : string) : (a +:+ b) +:+ c = a +:+ (b +:+ c).
Proof. induction a as [|x a IH]; [done|]. by rewrite !append_cons, IH. Qed.

Lemma append_empty_r (a : string) : a +:+ EmptyString = a.
Proof. induction a as [|x a IH]; [done|]. by rewrite append_cons, IH. Qed.

Lemma append_length (a b : string) :
  String.length (a +:+ b) = String.length a + String.length b.
Proof. induction a as [|x a IH]; [done|]. rewrite append_cons. simpl. by rewrite IH. Qed.

(** More steps do not change what a string reads as. *)
Lemma parse_string_mono n m s r :
  n ≤ m → parse_string n s = Some r → parse_string m s = Some r.
Proof.
  revert m s r. induction n as [|n IH]; intros m s r Hnm; [done|].
  destruct m as [|m]; [lia|]. simpl.
  destruct s as [|c s']; [done|].
  destruct (decide (nat_of_ascii c = 34)); [done|].
  destruct (decide (nat_of_ascii c = 92)).
  - destruct (parse_escape s') as [[c' s'']|]; [|done].
    destruct (parse_string n s'') as [[t r']|] eqn:E; [|done].
    by rewrite (IH m s'' (t, r') ltac:(lia) E).
  - destruct (decide (nat_of_ascii c < 32)); [done|].
    destruct (parse_string n s') as [[t r']|] eqn:E; [|done].
    by rewrite (IH m s' (t, r') ltac:(lia) E).
Qed.

(** One character, written and read. *)
Lemma parse_string_escape_char c s n :
  parse_string (S n) (escape_char c +:+ s)
  = match parse_string n s with
    | Some (t, r) => Some (String c t, r)
    | None => None
    end.
Proof.
  destruct c as [[] [] [] [] [] [] [] []]; reflexivity.
Qed.

Lemma parse_string_escape s rest :
  parse_string (S (String.length s)) (escape s +:+ String dquote rest) = Some (s, rest).
Proof.
  induction s as [|c s IH]; [reflexivity|].
  cbn [escape String.length]. rewrite append_assoc, parse_string_escape_char.
  by rewrite IH.
Qed.

Lemma escape_char_length c : 1 ≤ String.length (escape_char c).
Proof. destruct c as [[] [] [] [] [] [] [] []]; vm_compute; lia. Qed.

Lemma escape_length s : String.length s ≤ String.length (escape s).
Proof.
  induction s as [|c s IH]; simpl; [done|].
  rewrite append_length. pose proof (escape_char_length c). lia.
Qed.

(** A quoted string reads back as the string, with the steps a text of its
    length allows. *)
Lemma parse_string_quoted s rest n :
  String.length (escape s +:+ String dquote rest) ≤ n →
  parse_string n (escape s +:+ String dquote rest) = Some (s, rest).
Proof.
  intros Hn. eapply parse_string_mono; [|apply parse_string_escape].
  rewrite append_length in Hn. simpl in Hn. pose proof (escape_length s). lia.
Qed.

Lemma span_number_app t rest :
  forallb number_char (list_ascii_of_string t) = true → ends_number rest →
  span_number (t +:+ rest) = (t, rest).
Proof.
  intros Ht Hr. induction t as [|c t IH].
  - destruct rest as [|c r]; [done|]. simpl in *. by rewrite Hr.
  - simpl in Ht. apply andb_prop in Ht as [Hc Ht].
    rewrite append_cons. simpl. by rewrite Hc, (IH Ht).
Qed.

Lemma uint_chars d :
  forallb number_char (list_ascii_of_string (NilEmpty.string_of_uint d)) = true ∧
  float_syntax (NilEmpty.string_of_uint d) = false.
Proof. induction d as [|d [IH1 IH2]| | | | | | | | | ]; simpl; try done; by intuition. Qed.

Lemma dump_int_chars n :
  forallb number_char (list_ascii_of_string (dump_int n)) = true ∧
  float_syntax (dump_int n) = false.
Proof.
  unfold dump_int. destruct (Z.to_int n) as [d|d]; simpl; [apply uint_chars|].
  destruct (uint_chars d). by split.
Qed.

Lemma uint_head d :
  d ≠ Decimal.Nil →
  ∃ c t, NilEmpty.string_of_uint d = String c t ∧ number_start c.
Proof.
  destruct d; [done|..]; intros _; eexists _, _; (split; [reflexivity|]);
    right; vm_compute; lia.
Qed.

Lemma dump_int_head n : ∃ c t, dump_int n = String c t ∧ number_start c.
Proof.
  unfold dump_int. destruct n as [|p|p]; simpl.
  - eexists _, _. split; [reflexivity|]. right. vm_compute. lia.
  - apply uint_head, DecimalPos.Unsigned.to_uint_nonnil.
  - eexists _, _. split; [reflexivity|]. left. reflexivity.
Qed.

Lemma parse_number_int n rest :
  ends_number rest → parse_number (dump_int n +:+ rest) = Some (DInt n, rest).
Proof.
  intros Hr. unfold parse_number. destruct (dump_int_chars n) as [H1 H2].
  rewrite (span_number_app _ _ H1 Hr), H2.
  unfold dump_int. by rewrite NilEmpty.isi, DecimalZ.of_to.
Qed.

Lemma parse_number_float r rest :
  float_repr r = true → ends_number rest →
  parse_number (r +:+ rest) = Some (DFloat r, rest).
Proof.
  intros Hf Hr. unfold float_repr in Hf. destruct r as [|c r]; [done|].
  apply andb_prop in Hf as [[_ H1]%andb_prop H2].
  unfold parse_number. by rewrite (span_number_app _ _ H1 Hr), H2.
Qed.

Lemma number_start_not_ws c : number_start c → is_ws c = false.
Proof.
  intros H. apply bool_decide_eq_false. rewrite !elem_of_cons, elem_of_nil.
  unfold number_start in H. lia.
Qed.

Lemma skip_ws_head c s : is_ws c = false → skip_ws (String c s) = String c s.
Proof. intros H. simpl. by rewrite H. Qed.

Lemma parse_value_number n c s :
  number_start c → parse_value (S n) (String c s) = parse_number (String c s).
Proof.
  intros H. cbn [parse_value]. rewrite (skip_ws_head _ _ (number_start_not_ws _ H)).
  cbv zeta. unfold number_start in H.
  repeat (case_decide; [try lia|]); [done|]. lia.
Qed.

Lemma parse_value_ws n s : parse_value n (String " " s) = parse_value n s.
Proof. by destruct n. Qed.

Lemma parse_value_string n s rest :
  parse_value (S n) (quoted s +:+ rest) = Some (DStr s, rest).
Proof.
  unfold quoted. rewrite append_cons, append_assoc, append_cons.
  change (EmptyString +:+ rest) with rest.
  change (parse_value (S n) (String dquote ?x))
    with (match parse_string (String.length x) x with
          | Some (t, r) => Some (DStr t, r)
          | None => None
          end).
  by rewrite parse_string_quoted.
Qed.

(** A display of items with distinct keys stores them as they are. *)
Lemma dict_set_fresh {V} k (v : V) d : k ∉ d.*1 → dict_set k v d = d ++ [(k, v)].
Proof.
  induction d as [|[k' v'] d IH]; simpl; [done|].
  rewrite not_elem_of_cons. intros [Hk Hd].
  destruct (decide (k = k')); [done|]. by rewrite IH.
Qed.

Lemma dict_of_items_nodup {V} (kvs : list (string * V)) :
  NoDup kvs.*1 → dict_of_items kvs = kvs.
Proof.
  unfold dict_of_items.
  enough (∀ acc, NoDup (acc ++ kvs).*1 →
            foldl (λ d kv, dict_set kv.1 kv.2 d) acc kvs = acc ++ kvs) as H
    by (intros; by apply (H [])).
  induction kvs as [|[k v] kvs IH]; intros acc Hnd; simpl.
  - by rewrite app_nil_r.
  - rewrite dict_set_fresh.
    + rewrite IH; rewrite <-app_assoc; [done|exact Hnd].
    + rewrite fmap_app, fmap_cons in Hnd. apply NoDup_app in Hnd as (_ & H & _).
      intros Hk. apply (H _ Hk). simpl. apply list_elem_of_here.
Qed.

Lemma append_empty_l (s : string) : EmptyString +:+ s = s.
Proof. reflexivity. Qed.

(** Texts as a sequence of characters followed by a text. *)
Ltac norm_app :=
  repeat first [rewrite append_assoc | rewrite append_cons | rewrite append_empty_l].

(** What is written starts with a character that is not white space and
    closes nothing. *)
Lemma dumps_head d t :
  json_native d = true → dumps d = Some t →
  ∃ c t', t = String c t' ∧ is_ws c = false ∧
          nat_of_ascii c ≠ 93 ∧ nat_of_ascii c ≠ 125.
Proof.
  assert (∀ c, number_start c →
            is_ws c = false ∧ nat_of_ascii c ≠ 93 ∧ nat_of_ascii c ≠ 125) as Hnum.
  { intros c H. split; [by apply number_start_not_ws|]. unfold number_start in H. lia. }
  destruct d as [|[]|n|r|s|xs|kds|c kds]; simpl; intros Hd Ht.
  - injection Ht as <-. by eexists _, _.
  - injection Ht as <-. by eexists _, _.
  - injection Ht as <-. by eexists _, _.
  - injection Ht as <-. destruct (dump_int_head n) as (c & t' & -> & Hc). eauto.
  - injection Ht as <-. unfold float_repr in Hd. destruct r as [|c r]; [done|].
    apply andb_prop in Hd as [[Hc%bool_decide_eq_true _]%andb_prop _]. eauto.
  - injection Ht as <-. by eexists _, _.
  - destruct (dump_elements dumps xs); [|done]. injection Ht as <-. by eexists _, _.
  - destruct (dump_members dumps kds); [|done]. injection Ht as <-. by eexists _, _.
  - done.
Qed.

Lemma parse_elements_ws n m s :
  parse_elements (parse_value n) m (String " " s) = parse_elements (parse_value n) m s.
Proof. destruct m; [done|]. simpl. by rewrite parse_value_ws. Qed.

Lemma parse_members_ws n m s :
  parse_members (parse_value n) m (String " " s) = parse_members (parse_value n) m s.
Proof. by destruct m. Qed.

Lemma parse_elements_close pv m s x r :
  pv s = Some (x, String "]" r) → parse_elements pv (S m) s = Some ([x], r).
Proof. intros H. simpl. by rewrite H. Qed.

Lemma parse_elements_comma pv m s x r :
  pv s = Some (x, String "," r) →
  parse_elements pv (S m) s
  = match parse_elements pv m r with
    | Some (xs, r') => Some (x :: xs, r')
    | None => None
    end.
Proof. intros H. simpl. by rewrite H. Qed.

Lemma parse_members_key pv m k s :
  parse_members pv (S m) (quoted k +:+ String ":" s)
  = match pv s with
    | Some (x, r) =>
        match skip_ws r with
        | String c' r' =>
            if decide (nat_of_ascii c' = 125) then Some ([(k, x)], r')
            else if decide (nat_of_ascii c' = 44) then
              match parse_members pv m r' with
              | Some (kxs, r'') => Some ((k, x) :: kxs, r'')
              | None => None
              end
            else None
        | EmptyString => None
        end
    | None => None
    end.
Proof.
  unfold quoted. norm_app. cbn [parse_members].
  rewrite skip_ws_head by reflexivity. rewrite decide_True by reflexivity.
  rewrite parse_string_quoted by done. reflexivity.
Qed.

Lemma parse_members_close pv m k s x r :
  pv s = Some (x, String "}" r) →
  parse_members pv (S m) (quoted k +:+ String ":" s) = Some ([(k, x)], r).
Proof. intros H. rewrite parse_members_key, H. reflexivity. Qed.

Lemma parse_members_comma pv m k s x r :
  pv s = Some (x, String "," r) →
  parse_members pv (S m) (quoted k +:+ String ":" s)
  = match parse_members pv m r with
    | Some (kxs, r') => Some ((k, x) :: kxs, r')
    | None => None
    end.
Proof. intros H. rewrite parse_members_key, H. reflexivity. Qed.

Lemma parse_elements_dumped xs :
  Forall reads_back xs → forallb json_native xs = true → xs ≠ [] →
  ∀ r, dump_elements dumps xs = Some r →
  ∀ n m rest, foldr (λ x k, size x + k) 0 xs ≤ n → length xs ≤ m →
  parse_elements (parse_value n) m (r +:+ rest) = Some (xs, rest).
Proof.
  induction 1 as [|x xs Hx _ IH]; [done|]. intros Hn _ r Hr n m rest Hsize Hm.
  simpl in Hn, Hr, Hsize, Hm. apply andb_prop in Hn as [Hnx Hnxs].
  destruct (dumps x) as [t|] eqn:Et; [|done].
  destruct m as [|m]; [lia|].
  destruct xs as [|y ys].
  - injection Hr as <-. norm_app. apply parse_elements_close.
    apply (Hx Hnx t Et n (String "]" rest)); [lia|done].
  - destruct (dump_elements dumps (y :: ys)) as [r'|] eqn:Er'; [|done].
    injection Hr as <-. norm_app.
    erewrite parse_elements_comma;
      [|apply (Hx Hnx t Et n (String "," (String " " (r' +:+ rest)))); [lia|done]].
    rewrite parse_elements_ws.
    rewrite (IH Hnxs ltac:(done) r' eq_refl n m rest); [done|simpl in *; lia..].
Qed.

Lemma parse_members_dumped kds :
  Forall (λ kd, reads_back kd.2) kds → forallb (λ kd, json_native kd.2) kds = true →
  kds ≠ [] →
  ∀ r, dump_members dumps kds = Some r →
  ∀ n m rest, foldr (λ kd k, size kd.2 + k) 0 kds ≤ n → length kds ≤ m →
  parse_members (parse_value n) m (r +:+ rest) = Some (kds, rest).
Proof.
  induction 1 as [|[k x] kds Hx _ IH]; [done|]. intros Hn _ r Hr n m rest Hsize Hm.
  simpl in Hx, Hn, Hr, Hsize, Hm. apply andb_prop in Hn as [Hnx Hnxs].
  destruct (dumps x) as [t|] eqn:Et; [|done].
  destruct m as [|m]; [lia|].
  destruct kds as [|y ys].
  - injection Hr as <-. norm_app.
    apply parse_members_close. rewrite parse_value_ws.
    apply (Hx Hnx t Et n (String "}" rest)); [lia|done].
  - destruct (dump_members dumps (y :: ys)) as [r'|] eqn:Er'; [|done].
    injection Hr as <-. norm_app.
    erewrite parse_members_comma.
    + rewrite parse_members_ws.
      rewrite (IH Hnxs ltac:(done) r' eq_refl n m rest); [done|simpl in *; lia..].
    + rewrite parse_value_ws.
      apply (Hx Hnx t Et n (String "," (String " " (r' +:+ rest)))); [lia|done].
Qed.

Lemma parse_value_array n c s :
  is_ws c = false → nat_of_ascii c ≠ 93 →
  parse_value (S n) (String "[" (String c s))
  = match parse_elements (parse_value n) n (String c s) with
    | Some (xs, r) => Some (DList xs, r)
    | None => None
    end.
Proof.
  intros Hws Hc. cbn [parse_value]. rewrite (skip_ws_head "[") by reflexivity.
  cbv zeta. rewrite !decide_False by (vm_compute; lia).
  rewrite decide_True by reflexivity.
  by rewrite (skip_ws_head c) by done; rewrite decide_False by done.
Qed.

Lemma parse_value_object n c s :
  is_ws c = false → nat_of_ascii c ≠ 125 →
  parse_value (S n) (String "{" (String c s))
  = match parse_members (parse_value n) n (String c s) with
    | Some (kxs, r) => Some (DDict (dict_of_items kxs), r)
    | None => None
    end.
Proof.
  intros Hws Hc. cbn [parse_value]. rewrite (skip_ws_head "{") by reflexivity.
  cbv zeta. rewrite !decide_False by (vm_compute; lia).
  rewrite decide_True by reflexivity.
  by rewrite (skip_ws_head c) by done; rewrite decide_False by done.
Qed.

(** The elements of an array that is not empty start with the first. *)
Lemma dump_elements_head xs r :
  forallb json_native xs = true → xs ≠ [] → dump_elements dumps xs = Some r →
  ∃ c r', r = String c r' ∧ is_ws c = false ∧ nat_of_ascii c ≠ 93.
Proof.
  destruct xs as [|x xs]; [done|]. simpl. intros [Hx _]%andb_prop _ Hr.
  destruct (dumps x) as [t|] eqn:Et; [|done].
  destruct (dumps_head x t Hx Et) as (c & t' & -> & Hws & Hc & _).
  destruct xs; [|destruct (dump_elements dumps _); [|done]];
    injection Hr as <-; eexists _, _; by rewrite append_cons.
Qed.

Lemma dump_members_head kds r :
  kds ≠ [] → dump_members dumps kds = Some r →
  ∃ r', r = String dquote r'.
Proof.
  destruct kds as [|[k x] kds]; [done|]. simpl. intros _ Hr.
  destruct (dumps x) as [t|] eqn:Et; [|done].
  destruct kds; [|destruct (dump_members dumps _); [|done]];
    injection Hr as <-; eexists; unfold quoted; by rewrite append_cons.
Qed.

(** A document holds at least as many values as an array has elements. *)
Lemma size_pos d : 1 ≤ size d.
Proof. destruct d; simpl; lia. Qed.

Lemma length_le_size (xs : list doc) : length xs ≤ foldr (λ x k, size x + k) 0 xs.
Proof. induction xs as [|x xs IH]; simpl; [done|]. pose proof (size_pos x). lia. Qed.

Lemma length_le_size_items (kds : list (string * doc)) :
  length kds ≤ foldr (λ kd k, size kd.2 + k) 0 kds.
Proof. induction kds as [|[k x] kds IH]; simpl; [done|]. pose proof (size_pos x). lia. Qed.

(** Whatever [dumps] writes, [parse_value] reads back. *)
Lemma dumps_reads_back d : reads_back d.
Proof.
  induction d as [|b|z|r|s|xs IH|kds IH|c kds IH] using doc_ind';
    intros Hn t Ht n rest Hsize Hrest; simpl in Hn, Ht, Hsize;
    (destruct n as [|n]; [lia|]).
  - by injection Ht as <-.
  - destruct b; by injection Ht as <-.
  - injection Ht as <-. destruct (dump_int_head z) as (c & t' & Hz & Hc).
    rewrite Hz, append_cons, (parse_value_number _ _ _ Hc), <-append_cons, <-Hz.
    by apply parse_number_int.
  - injection Ht as <-. pose proof Hn as Hf. unfold float_repr in Hf.
    destruct r as [|c r]; [done|].
    apply andb_prop in Hf as [[Hc%bool_decide_eq_true _]%andb_prop _].
    rewrite append_cons, (parse_value_number _ _ _ Hc), <-append_cons.
    by apply parse_number_float.
  - injection Ht as <-. apply parse_value_string.
  - destruct (dump_elements dumps xs) as [r|] eqn:Er; [|done]. injection Ht as <-.
    destruct xs as [|x xs].
    + by injection Er as <-.
    + destruct (dump_elements_head _ _ Hn ltac:(done) Er) as (c & r' & Hr & Hws & Hc).
      norm_app. rewrite Hr, append_cons, (parse_value_array _ _ _ Hws Hc), <-append_cons, <-Hr.
      rewrite (parse_elements_dumped _ IH Hn ltac:(done) r Er n n rest); [done|lia|].
      pose proof (length_le_size (x :: xs)). lia.
  - destruct (dump_members dumps kds) as [r|] eqn:Er; [|done]. injection Ht as <-.
    apply andb_prop in Hn as [Hnd%bool_decide_eq_true Hn].
    destruct kds as [|kx kds].
    + by injection Er as <-.
    + destruct (dump_members_head (kx :: kds) r ltac:(done) Er) as (r' & Hr).
      norm_app. rewrite Hr, append_cons.
      rewrite (parse_value_object n dquote) by done.
      rewrite <-append_cons, <-Hr.
      rewrite (parse_members_dumped _ IH Hn ltac:(done) r Er n n rest).
      * by rewrite dict_of_items_nodup.
      * lia.
      * pose proof (length_le_size_items (kx :: kds)). lia.
  - done.
Qed.

Lemma dump_elements_length xs r :
  Forall fits xs → forallb json_native xs = true →
  dump_elements dumps xs = Some r →
  foldr (λ x k, size x + k) 0 xs < String.length r.
Proof.
  intros H. revert r. induction H as [|x xs Hx _ IH]; intros r; simpl.
  - intros _ [= <-]. simpl. lia.
  - intros [Hnx Hnxs]%andb_prop.
    destruct (dumps x) as [t|] eqn:Et; [|done]. specialize (Hx Hnx t Et).
    destruct xs as [|y ys].
    + intros [= <-]. rewrite append_length. simpl. lia.
    + destruct (dump_elements dumps (y :: ys)) as [r'|]; [|done].
      specialize (IH r' Hnxs eq_refl). intros [= <-].
      rewrite !append_length. simpl in *. lia.
Qed.

Lemma dump_members_length kds r :
  Forall (λ kd, fits kd.2) kds → forallb (λ kd, json_native kd.2) kds = true →
  dump_members dumps kds = Some r →
  foldr (λ kd k, size kd.2 + k) 0 kds < String.length r.
Proof.
  intros H. revert r. induction H as [|[k x] kds Hx _ IH]; intros r; simpl.
  - intros _ [= <-]. simpl. lia.
  - intros [Hnx Hnxs]%andb_prop. simpl in Hx.
    destruct (dumps x) as [t|] eqn:Et; [|done]. specialize (Hx Hnx t Et).
    destruct kds as [|y ys].
    + intros [= <-]. rewrite !append_length. simpl. lia.
    + destruct (dump_members dumps (y :: ys)) as [r'|]; [|done].
      specialize (IH r' Hnxs eq_refl). intros [= <-].
      rewrite !append_length. simpl in *. lia.
Qed.

Lemma dumps_length d : fits d.
Proof.
  induction d as [|b|z|r|s|xs IH|kds IH|c kds IH] using doc_ind'; intros Hn t; simpl in *.
  - intros [= <-]. simpl. lia.
  - destruct b; intros [= <-]; simpl; lia.
  - intros [= <-]. destruct (dump_int_head z) as (c & t' & -> & _). simpl. lia.
  - intros [= <-]. destruct r; [done|simpl; lia].
  - intros [= <-]. simpl. lia.
  - destruct (dump_elements dumps xs) as [r|] eqn:Er; [|done]. intros [= <-].
    pose proof (dump_elements_length _ _ IH Hn Er). rewrite append_length. simpl. lia.
  - apply andb_prop in Hn as [_ Hn].
    destruct (dump_members dumps kds) as [r|] eqn:Er; [|done]. intros [= <-].
    pose proof (dump_members_length _ _ IH Hn Er). rewrite append_length. simpl. lia.
  - done.
Qed.

(** What can be carried can be written. *)
Lemma dump_elements_total xs :
  Forall (λ x, json_native x = true → is_Some (dumps x)) xs →
  forallb json_native xs = true → is_Some (dump_elements dumps xs).
Proof.
  induction 1 as [|x xs Hx _ IH]; simpl; [done|]. intros [Hnx Hnxs]%andb_prop.
  destruct (Hx Hnx) as [t ->]. destruct xs as [|y ys]; [done|].
  by destruct (IH Hnxs) as [r ->].
Qed.

Lemma dump_members_total kds :
  Forall (λ kd, json_native kd.2 = true → is_Some (dumps kd.2)) kds →
  forallb (λ kd, json_native kd.2) kds = true → is_Some (dump_members dumps kds).
Proof.
  induction 1 as [|[k x] kds Hx _ IH]; simpl; [done|]. intros [Hnx Hnxs]%andb_prop.
  simpl in Hx. destruct (Hx Hnx) as [t ->]. destruct kds as [|y ys]; [done|].
  by destruct (IH Hnxs) as [r ->].
Qed.

Lemma dumps_total d : json_native d = true → is_Some (dumps d).
Proof.
  induction d as [|b|z|r|s|xs IH|kds IH|c kds IH] using doc_ind'; intros Hn; simpl in *;
    try done.
  - by destruct b.
  - by destruct (dump_elements_total xs IH Hn) as [r ->].
  - apply andb_prop in Hn as [_ Hn]. by destruct (dump_members_total kds IH Hn) as [r ->].
Qed.

(** Reading what was written gives the document back. *)
Lemma loads_dumps d t : json_native d = true → dumps d = Some t → loads t = Some d.
Proof.
  intros Hn Ht. unfold loads.
  pose proof (dumps_reads_back d Hn t Ht (String.length t) EmptyString
                (dumps_length d Hn t Ht) I) as H.
  rewrite append_empty_r in H. by rewrite H.
Qed.

Lemma round_trip_native d :
  json_native d = true → ∃ t, dumps d = Some t ∧ loads t = Some d.
Proof.
  intros Hn. destruct (dumps_total d Hn) as [t Ht].
  exists t. split; [done|by apply loads_dumps].
Qed.

Lemma round_trip_forms (cs : list doc) :
  forallb (λ c, json_native (to_dict c)) cs = true →
  Forall (λ c, ∃ t, dumps (to_dict c) = Some t ∧ loads t = Some (to_dict c)) cs.
Proof.
  rewrite forallb_forall, Forall_forall. intros H c Hc.
  apply round_trip_native, H. by apply list_elem_of_In.
Qed.

Lemma all_shown_eq w :
  all_shown w
  = shown (run w ex_altair).2 ++ shown (run w ex_markdown_test).2 ++
    shown (run w ex_matplotlib_1).2 ++ shown (run w ex_pandas_2).2 ++
    shown (run w ex_plotly_2).2 ++ shown (run w ex_vega).2 ++ [].
Proof. reflexivity. Qed.

(** C5. A chart specification written as JSON and read back is the
    specification it was, field for field. For the documents [ex-vega.py]
    writes out, the JSON form is the document itself. For a chart that is an
    object of a library (the Altair chart of [ex-altair.py], the plotly
    figure of [ex-plotly-2.py]) the JSON form is its declarative form
    [to_dict]. The round trip holds for everything any script shows, and for
    every document JSON can carry. *)
Theorem C5_json_round_trip (w : world) :
  Forall (λ d, ∃ t, dumps d = Some t ∧ loads t = Some d) (chart_documents w) ∧
  Forall (λ c, ∃ t, dumps (to_dict c) = Some t ∧ loads t = Some (to_dict c)) (all_shown w) ∧
  (∃ chart, shown (run w ex_altair).2 = [chart] ∧ chart ∈ all_shown w ∧
     attr "mark" chart = Some (DStr "point") ∧
     ∃ t, dumps (to_dict chart) = Some t ∧ loads t = Some (to_dict chart)) ∧
  (∀ body, http_get w mt_bruno_url = inr body →
     ∃ fig, shown (run w ex_plotly_2).2 = [fig] ∧ fig ∈ all_shown w ∧
       ∃ t, dumps (to_dict fig) = Some t ∧ loads t = Some (to_dict fig)) ∧
  (∀ d, json_native d = true → ∃ t, dumps d = Some t ∧ loads t = Some d).
Proof.
  assert (Forall (λ c, ∃ t, dumps (to_dict c) = Some t ∧ loads t = Some (to_dict c))
            (all_shown w)) as Hall.
  { rewrite all_shown_eq, !Forall_app. split_and!; apply round_trip_forms.
    - by vm_compute.
    - by vm_compute.
    - by vm_compute.
    - pandas_cases w; by vm_compute.
    - plotly_cases w; by vm_compute.
    - by vm_compute.
    - done. }
  split_and!.
  - rewrite chart_documents_eq. each; apply round_trip_native; by vm_compute.
  - exact Hall.
  - assert (∃ chart, shown (run w ex_altair).2 = [chart] ∧
                     attr "mark" chart = Some (DStr "point")) as (chart & Hs & Hm)
      by (eexists; split; by vm_compute).
    assert (chart ∈ all_shown w) as Hin.
    { rewrite all_shown_eq, Hs. apply elem_of_app. left. apply list_elem_of_here. }
    exists chart. split_and!; [done..|].
    rewrite Forall_forall in Hall. by apply Hall.
  - intros body Hb.
    assert (∃ fig, shown (run w ex_plotly_2).2 = [fig]) as (fig & Hs).
    { rewrite (run_answering w mt_bruno_url) by apply ex_plotly_2_network_only.
      rewrite Hb. eexists. by vm_compute. }
    assert (fig ∈ all_shown w) as Hin.
    { rewrite all_shown_eq, Hs. do 4 (apply elem_of_app; right).
      apply elem_of_app. left. apply list_elem_of_here. }
    exists fig. split_and!; [done..|].
    rewrite Forall_forall in Hall. by apply Hall.
  - apply round_trip_native.
Qed.

(** * Further properties of the scripts *)



(** X2. A display call whose payload names a variable that is not bound
    (a cell of [ex-vega.py] run before the assignment above it) raises
    [NameError] for that name; nothing is displayed, and no object, binding
    or setting changes. *)
Theorem X2_display_of_unbound_name (w : world) (s : state) (mime x : string) (raw : bool) :
  globals s !! x = None →
  display (construct (EDict [(mime, EName x)])) raw w s = (Raise (NameError x), s).
Proof.
  intros Hx. unfold display, construct, mbind, M_bind. simpl. rewrite Hx.
  by destruct s.
Qed.

Lemma X2_witness :
  globals init !! "line_spec" = None ∧
  display (construct (EDict [("application/vnd.vegalite.v5+json", EName "line_spec")]))
    true offline init
  = (Raise (NameError "line_spec"), init).
Proof.
  split; [reflexivity|].
  exact (X2_display_of_unbound_name offline init "application/vnd.vegalite.v5+json"
           "line_spec" true eq_refl).
Defined.





(** X7. The Vega document of [ex-vega.py] (the pie chart) is closed under
    its references, whatever the world it is displayed in: every scale a
    channel of a mark names is declared under [scales], every data set a
    mark draws or a scale's domain reads is declared under [data], and
    every signal expression is the name of a signal declared under
    [signals], but for the three that compute from the built-in signals
    [width] and [height]. It is the only Vega document displayed. *)
Theorem X7_vega_references_resolve (w : world) :
  filter (λ d, is_vega d = true) (chart_documents w) = [the vega_spec] ∧
  Forall (λ d,
    scale_references d ⊆ declared "scales" d ∧
    data_references d ⊆ declared "data" d ∧
    scale_references d = ["color"] ∧
    data_references d = ["table"; "table"] ∧
    declared "signals" d = ["startAngle"; "endAngle"; "padAngle"; "innerRadius"; "sort"] ∧
    filter (λ e, e ∉ declared "signals" d) (signal_references d)
    = ["width / 2"; "height / 2"; "width / 2"] ∧
    filter (λ e, e ∈ declared "signals" d) (signal_references d)
    = ["startAngle"; "endAngle"; "sort"; "padAngle"; "innerRadius"])
    (filter (λ d, is_vega d = true) (chart_documents w)).
Proof.
  rewrite chart_documents_eq.
  assert (filter (λ d, is_vega d = true)
            [the vegalite_spec; the line_spec; the vega_spec; the scatter_spec]
          = [the vega_spec]) as -> by (by vm_compute).
  split; [reflexivity|]. apply Forall_cons_2; [|apply Forall_nil_2].
  cbv beta. split_and!; try by vm_compute.
  assert (data_references (the vega_spec) = ["table"; "table"]) as -> by (by vm_compute).
  assert (declared "data" (the vega_spec) = ["table"]) as -> by (by vm_compute).
  intros x Hx. apply elem_of_cons in Hx as [->|Hx]; [apply list_elem_of_here|].
  apply elem_of_cons in Hx as [->|Hx]; [apply list_elem_of_here|].
  by apply elem_of_nil in Hx.
Qed.

(** X8. [ex-vega.py] runs to its end in every world and makes no request.
    Each of its four names is bound to the document written in its
    assignment, and each display call carries in its bundle the very object
    its name is bound to, not a copy: the four calls display the four
    objects in the order of the script. *)
Theorem X8_vega_names_and_bundles (w : world) :
  let s := (run w ex_vega).2 in
  (run w ex_vega).1 = Ok () ∧ fetched s = [] ∧
  Forall (λ p, denotes s p.1 = Some (the p.2))
    [("vegalite_spec", vegalite_spec); ("line_spec", line_spec);
     ("vega_spec", vega_spec); ("scatter_spec", scatter_spec)] ∧
  Some <$> bundled s
  = (λ x, globals s !! x) <$> ["vegalite_spec"; "line_spec"; "vega_spec"; "scatter_spec"] ∧
  NoDup (bundled s) ∧ length (bundled s) = 4.
Proof.
  cbv zeta.
  assert (bundled (run w ex_vega).2 = [VRef 11; VRef 25; VRef 64; VRef 82]) as Hb
    by (vm_compute; reflexivity).
  rewrite Hb. split_and!.
  - vm_compute; reflexivity.
  - vm_compute; reflexivity.
  - each; vm_compute; reflexivity.
  - vm_compute; reflexivity.
  - apply NoDup_ListNoDup. repeat constructor; simpl; intros H;
      repeat (destruct H as [H|H]; [discriminate H|]); exact H.
  - reflexivity.
Qed.

(** X9. [ex-markdown-test.py] shows, in every world and without a request,
    one [Markdown] object whose text is the triple-quoted literal: split at
    its line breaks it is an empty first line, the thirty lines written,
    and an empty last one. The table in it is well formed (its header, its
    delimiter row and its two rows each have three bars), and the code
    fence opened in it is closed (two fence lines). *)
Theorem X9_markdown_text (w : world) :
  let s := (run w ex_markdown_test).2 in
  (run w ex_markdown_test).1 = Ok () ∧ fetched s = [] ∧
  ∃ text,
    displays s = [(false, Some (DObj "Markdown" [("data", DStr text)]))] ∧
    split_lines text = EmptyString :: markdown_lines ++ [EmptyString] ∧
    length (split_lines text) = 32 ∧
    occurrences "|"%char <$> filter (λ l, String.prefix "|" l = true) (split_lines text)
    = [3; 3; 3; 3] ∧
    length (filter (λ l, String.prefix "```" l = true) (split_lines text)) = 2.
Proof.
  cbv zeta. split_and!; try by vm_compute.
  exists markdown_text. split_and!; by vm_compute.
Qed.
